(** * Railway crossing controller: the state machine, the scheduler tick and
      the command processor of [api/server.py]

    The development embeds the controller of [src/api/server.py] (classes
    [RailwayCrossing], [RailwaySystem] and the body of [background_task]) and
    the arrival-time and transition-table code of [src/core/fsm.py].

    Conventions of the embedding:
    - Python objects mutated in place become explicit state: a method of a
      crossing is a computation over the pair (shared logger, crossing), a
      method of the system is a computation over the [RailwaySystem] record.
      Exceptions keep the state reached so far, as in Python.
    - [float] is binary64 (the kernel's primitive floats), [int] is [Z].
    - [datetime.now()] and the [random] module are inputs (an [oracle] per
      call site that reads them); timestamps are integers, in microseconds.
    - The logger keeps the event type and the crossing id of every entry; the
      formatted message, level and wall-clock text of an entry are omitted. *)

From Stdlib Require Import ZArith Bool List String Ascii Lia Floats.
From stdpp Require Import base option list gmap strings pretty.

#[local] Set Warnings "-inexact-float,-register-all".
#[local] Open Scope Z_scope.

(* ===================================================================== *)
(** ** Python values and arithmetic used by the controller *)
(* ===================================================================== *)

Module Py.

(** The exception classes the modelled code can raise. *)
Inductive exn : Type :=
| TypeError | ValueError | OverflowError | ZeroDivisionError
| AttributeError | KeyError | IndexError.

(** Outcome of evaluating an expression: a value or a raised exception. *)
Inductive outcome (A : Type) : Type :=
| Ok (a : A)
| Raise (e : exn).
Arguments Ok {A} a.
Arguments Raise {A} e.

Definition obind {A B} (x : outcome A) (k : A -> outcome B) : outcome B :=
  match x with
  | Ok a => k a
  | Raise e => Raise e
  end.

(** Python numbers: [int] (unbounded) and [float] (binary64). *)
Inductive num : Type :=
| NInt (z : Z)
| NFloat (f : float).

(** Values that reach the controller through JSON parameters. *)
Inductive pyval : Type :=
| VNone
| VBool (b : bool)
| VInt (z : Z)
| VFloat (f : float)
| VStr (s : string)
| VList (l : list pyval)
| VDict (d : list (string * pyval)).

Definition of_num (n : num) : pyval :=
  match n with
  | NInt z => VInt z
  | NFloat f => VFloat f
  end.

(** Numeric view of a value in arithmetic and ordering ([bool] is a
    subclass of [int]); every other type raises [TypeError] there. *)
Definition as_num (v : pyval) : outcome num :=
  match v with
  | VBool b => Ok (NInt (Z.b2z b))
  | VInt z => Ok (NInt z)
  | VFloat f => Ok (NFloat f)
  | _ => Raise TypeError
  end.

(** [bool(v)]. *)
Definition truthy (v : pyval) : bool :=
  match v with
  | VNone => false
  | VBool b => b
  | VInt z => negb (z =? 0)
  | VFloat f => negb (f =? 0)%float
  | VStr s => negb (String.eqb s "")
  | VList l => match l with [] => false | _ => true end
  | VDict d => match d with [] => false | _ => true end
  end.

(** [d.get(k)] on the entries of a dict. *)
Fixpoint dict_get (k : string) (d : list (string * pyval)) : option pyval :=
  match d with
  | [] => None
  | (k', v) :: d' => if String.eqb k k' then Some v else dict_get k d'
  end.

(** [float(z)]: nearest binary64, ties to even; [OverflowError] when the
    integer is too large for a float. *)
Definition float_of_Z (z : Z) : outcome float :=
  let f := SF2Prim (binary_normalize prec emax z 0 false) in
  if is_infinity f then Raise OverflowError else Ok f.

Definition to_float (n : num) : outcome float :=
  match n with
  | NInt z => float_of_Z z
  | NFloat f => Ok f
  end.

(** [int(f)]: truncation towards zero. *)
Definition Z_of_float (f : float) : outcome Z :=
  match Prim2SF f with
  | S754_nan => Raise ValueError
  | S754_infinity _ => Raise OverflowError
  | S754_zero _ => Ok 0
  | S754_finite s m e => Ok (cond_Zopp s (Z.shiftl (Zpos m) e))
  end.

(** [round(f)]: the nearest integer, ties to the even one. *)
Definition py_round (f : float) : outcome Z :=
  match Prim2SF f with
  | S754_nan => Raise ValueError
  | S754_infinity _ => Raise OverflowError
  | S754_zero _ => Ok 0
  | S754_finite s m e =>
      if 0 <=? e then Ok (cond_Zopp s (Zpos m * 2 ^ e))
      else
        let d := 2 ^ (- e) in
        let q := Zpos m / d in
        let r := Zpos m mod d in
        let up := (d <? 2 * r) || ((2 * r =? d) && Z.odd q) in
        Ok (cond_Zopp s (if up then q + 1 else q))
  end.

(** Exact comparison of a float with an integer ([None] for NaN). *)
Definition float_cmp_Z (f : float) (z : Z) : option comparison :=
  match Prim2SF f with
  | S754_nan => None
  | S754_infinity s => Some (if s then Lt else Gt)
  | S754_zero _ => Some (0 ?= z)
  | S754_finite s m e =>
      let v := cond_Zopp s (Zpos m) in
      Some (if 0 <=? e then (v * 2 ^ e ?= z) else (v ?= z * 2 ^ (- e)))
  end.

(** [x < y] and [x <= y] on numbers; comparisons with NaN are false. *)
Definition num_ltb (x y : num) : bool :=
  match x, y with
  | NInt a, NInt b => a <? b
  | NFloat f, NFloat g => (f <? g)%float
  | NFloat f, NInt b =>
      match float_cmp_Z f b with Some Lt => true | _ => false end
  | NInt a, NFloat g =>
      match float_cmp_Z g a with Some Gt => true | _ => false end
  end.

Definition num_leb (x y : num) : bool :=
  match x, y with
  | NInt a, NInt b => a <=? b
  | NFloat f, NFloat g => (f <=? g)%float
  | NFloat f, NInt b =>
      match float_cmp_Z f b with Some Lt | Some Eq => true | _ => false end
  | NInt a, NFloat g =>
      match float_cmp_Z g a with Some Gt | Some Eq => true | _ => false end
  end.

(** [x > y] is [y < x], [x >= y] is [y <= x]. *)
Definition num_gtb (x y : num) : bool := num_ltb y x.
Definition num_geb (x y : num) : bool := num_leb y x.

(** [min(a, b)] keeps [a] unless [b < a]; [max(a, b)] keeps [a] unless
    [b > a]. *)
Definition py_min (a b : num) : num := if num_ltb b a then b else a.
Definition py_max (a b : num) : num := if num_gtb b a then b else a.

(** [x + y] and [x * y]: integer arithmetic on two ints, float arithmetic
    (after conversion) otherwise. *)
Definition num_add (x y : num) : outcome num :=
  match x, y with
  | NInt a, NInt b => Ok (NInt (a + b))
  | _, _ =>
      obind (to_float x) (fun f =>
      obind (to_float y) (fun g => Ok (NFloat (f + g)%float)))
  end.

Definition num_mul (x y : num) : outcome num :=
  match x, y with
  | NInt a, NInt b => Ok (NInt (a * b))
  | _, _ =>
      obind (to_float x) (fun f =>
      obind (to_float y) (fun g => Ok (NFloat (f * g)%float)))
  end.

(** [a / b] on two ints: the correctly rounded quotient. *)
Definition Z_truediv (a b : Z) : outcome float :=
  if b =? 0 then Raise ZeroDivisionError
  else if a =? 0 then Ok (if b <? 0 then neg_zero else zero)
  else
    let q := SF2Prim (SFdiv prec emax
                        (S754_finite (a <? 0) (Z.to_pos (Z.abs a)) 0)
                        (S754_finite (b <? 0) (Z.to_pos (Z.abs b)) 0)) in
    if is_infinity q then Raise OverflowError else Ok q.

(** [x / y]: true division, always a float; a zero divisor raises. *)
Definition num_truediv (x y : num) : outcome float :=
  match x, y with
  | NInt a, NInt b => Z_truediv a b
  | _, _ =>
      obind (to_float x) (fun f =>
      obind (to_float y) (fun g =>
      if (g =? 0)%float then Raise ZeroDivisionError else Ok (f / g)%float))
  end.

(** ASCII case mapping of [str.upper()]. *)
Definition upper_ascii (c : Ascii.ascii) : Ascii.ascii :=
  let n := Ascii.nat_of_ascii c in
  if ((97 <=? n) && (n <=? 122))%nat then Ascii.ascii_of_nat (n - 32) else c.

Fixpoint upper (s : string) : string :=
  match s with
  | EmptyString => EmptyString
  | String c s' => String (upper_ascii c) (upper s')
  end.

End Py.
Import Py.

Notation "'let*' x ':=' e 'in' k" := (obind e (fun x => k))
  (at level 10, x name, e at level 200, k at level 200).

(** ** Computations over mutable state that may raise *)

Definition M (W A : Type) : Type := W -> W * outcome A.

Definition ret {W A} (a : A) : M W A := fun w => (w, Ok a).
Definition raise {W A} (e : exn) : M W A := fun w => (w, Raise e).
Definition bind {W A B} (m : M W A) (k : A -> M W B) : M W B :=
  fun w => match m w with
           | (w', Ok a) => k a w'
           | (w', Raise e) => (w', Raise e)
           end.
Definition get {W} : M W W := fun w => (w, Ok w).
Definition modify {W} (f : W -> W) : M W unit := fun w => (f w, Ok tt).
Definition eval {W A} (x : outcome A) : M W A := fun w => (w, x).
(** [try: m except Exception as e: h e]. *)
Definition try_except {W A} (m : M W A) (h : exn -> M W A) : M W A :=
  fun w => match m w with
           | (w', Ok a) => (w', Ok a)
           | (w', Raise e) => h e w'
           end.

Notation "x <- m ;; k" := (bind m (fun x => k))
  (at level 100, m at next level, right associativity).
Notation "m ;; k" := (bind m (fun _ => k))
  (at level 100, right associativity).


(* ===================================================================== *)
(** ** Enumerations and records of [api/server.py] *)
(* ===================================================================== *)

Inductive CrossingState : Type :=
| IDLE | WARNING | COUNTDOWN | BARRIER_DOWN | TRAIN_PASSING
| EMERGENCY | MAINTENANCE.

Inductive WeatherCondition : Type :=
| CLEAR | RAIN | FOG | STORM.

#[global] Instance CrossingState_eq_dec : EqDecision CrossingState.
Proof. solve_decision. Defined.

#[global] Instance WeatherCondition_eq_dec : EqDecision WeatherCondition.
Proof. solve_decision. Defined.

(** [WeatherCondition[name]]: lookup of a member by name. *)
Definition WeatherCondition_of_name (name : string) : option WeatherCondition :=
  if String.eqb name "CLEAR" then Some CLEAR
  else if String.eqb name "RAIN" then Some RAIN
  else if String.eqb name "FOG" then Some FOG
  else if String.eqb name "STORM" then Some STORM
  else None.

(** *** SystemLogger *)

Record log_entry : Type := {
  log_id : Z;
  log_event_type : string;
  log_crossing : Z   (* the crossing id, [-1] when there is none *)
}.

Record SystemLogger : Type := {
  logs : list log_entry;
  event_counter : Z
}.

Definition new_logger : SystemLogger := {| logs := []; event_counter := 0 |}.

(** [SystemLogger.log_event]: append the entry, keep the last 100. *)
Definition log_event (event_type : string) (crossing_id : option Z)
    (lg : SystemLogger) : SystemLogger :=
  let entry := {| log_id := event_counter lg;
                  log_event_type := event_type;
                  log_crossing := default (-1) crossing_id |} in
  let appended := logs lg ++ [entry] in
  {| logs := if (100 <? length appended)%nat then tail appended else appended;
     event_counter := event_counter lg + 1 |}.

(** The slice [l[start:]]: a negative [start] counts from the end, and the
    bound is clipped to the list. *)
Definition slice_from {A} (start : Z) (l : list A) : list A :=
  let len := Z.of_nat (length l) in
  let lower := if start <? 0 then Z.max 0 (start + len) else Z.min start len in
  drop (Z.to_nat lower) l.

(** [SystemLogger.get_logs]: [self.logs[-count:] if self.logs else []]. *)
Definition get_logs (count : Z) (lg : SystemLogger) : list log_entry :=
  match logs lg with
  | [] => []
  | _ => slice_from (- count) (logs lg)
  end.

(** [SystemLogger.clear_logs]: empty the list, then log SYSTEM_START. *)
Definition clear_logs (lg : SystemLogger) : SystemLogger :=
  log_event "SYSTEM_START" None
    {| logs := []; event_counter := event_counter lg |}.

(** *** RailwayCrossing *)

Record lights : Type := { red : bool; yellow : bool; green : bool }.

Record history_entry : Type := {
  h_timestamp : Z;
  h_from : CrossingState;
  h_to : CrossingState;
  h_weather : WeatherCondition
}.

Record RailwayCrossing : Type := {
  cid : Z;                               (* [self.id] *)
  state : CrossingState;
  barrier : string;
  train_position : num;
  train_speed : pyval;
  train_distance : pyval;
  weather : WeatherCondition;
  countdown : Z;
  alarm : string;
  traffic_lights : lights;
  sensor_health : gmap string bool;
  faults : list string;
  confidence : float;
  state_history : list history_entry;
  last_state_change : Z;
  operation_count : Z;
  component_health : list (string * Z)
}.

(** Field assignments [self.f = v]. *)
Definition set_state v c := {|
  cid := cid c; state := v; barrier := barrier c;
  train_position := train_position c; train_speed := train_speed c;
  train_distance := train_distance c; weather := weather c;
  countdown := countdown c; alarm := alarm c;
  traffic_lights := traffic_lights c; sensor_health := sensor_health c;
  faults := faults c; confidence := confidence c;
  state_history := state_history c; last_state_change := last_state_change c;
  operation_count := operation_count c; component_health := component_health c |}.
Definition set_barrier v c := {|
  cid := cid c; state := state c; barrier := v;
  train_position := train_position c; train_speed := train_speed c;
  train_distance := train_distance c; weather := weather c;
  countdown := countdown c; alarm := alarm c;
  traffic_lights := traffic_lights c; sensor_health := sensor_health c;
  faults := faults c; confidence := confidence c;
  state_history := state_history c; last_state_change := last_state_change c;
  operation_count := operation_count c; component_health := component_health c |}.
Definition set_train_position v c := {|
  cid := cid c; state := state c; barrier := barrier c;
  train_position := v; train_speed := train_speed c;
  train_distance := train_distance c; weather := weather c;
  countdown := countdown c; alarm := alarm c;
  traffic_lights := traffic_lights c; sensor_health := sensor_health c;
  faults := faults c; confidence := confidence c;
  state_history := state_history c; last_state_change := last_state_change c;
  operation_count := operation_count c; component_health := component_health c |}.
Definition set_train_speed v c := {|
  cid := cid c; state := state c; barrier := barrier c;
  train_position := train_position c; train_speed := v;
  train_distance := train_distance c; weather := weather c;
  countdown := countdown c; alarm := alarm c;
  traffic_lights := traffic_lights c; sensor_health := sensor_health c;
  faults := faults c; confidence := confidence c;
  state_history := state_history c; last_state_change := last_state_change c;
  operation_count := operation_count c; component_health := component_health c |}.
Definition set_train_distance v c := {|
  cid := cid c; state := state c; barrier := barrier c;
  train_position := train_position c; train_speed := train_speed c;
  train_distance := v; weather := weather c;
  countdown := countdown c; alarm := alarm c;
  traffic_lights := traffic_lights c; sensor_health := sensor_health c;
  faults := faults c; confidence := confidence c;
  state_history := state_history c; last_state_change := last_state_change c;
  operation_count := operation_count c; component_health := component_health c |}.
Definition set_weather v c := {|
  cid := cid c; state := state c; barrier := barrier c;
  train_position := train_position c; train_speed := train_speed c;
  train_distance := train_distance c; weather := v;
  countdown := countdown c; alarm := alarm c;
  traffic_lights := traffic_lights c; sensor_health := sensor_health c;
  faults := faults c; confidence := confidence c;
  state_history := state_history c; last_state_change := last_state_change c;
  operation_count := operation_count c; component_health := component_health c |}.
Definition set_countdown v c := {|
  cid := cid c; state := state c; barrier := barrier c;
  train_position := train_position c; train_speed := train_speed c;
  train_distance := train_distance c; weather := weather c;
  countdown := v; alarm := alarm c;
  traffic_lights := traffic_lights c; sensor_health := sensor_health c;
  faults := faults c; confidence := confidence c;
  state_history := state_history c; last_state_change := last_state_change c;
  operation_count := operation_count c; component_health := component_health c |}.
Definition set_alarm v c := {|
  cid := cid c; state := state c; barrier := barrier c;
  train_position := train_position c; train_speed := train_speed c;
  train_distance := train_distance c; weather := weather c;
  countdown := countdown c; alarm := v;
  traffic_lights := traffic_lights c; sensor_health := sensor_health c;
  faults := faults c; confidence := confidence c;
  state_history := state_history c; last_state_change := last_state_change c;
  operation_count := operation_count c; component_health := component_health c |}.
Definition set_traffic_lights v c := {|
  cid := cid c; state := state c; barrier := barrier c;
  train_position := train_position c; train_speed := train_speed c;
  train_distance := train_distance c; weather := weather c;
  countdown := countdown c; alarm := alarm c;
  traffic_lights := v; sensor_health := sensor_health c;
  faults := faults c; confidence := confidence c;
  state_history := state_history c; last_state_change := last_state_change c;
  operation_count := operation_count c; component_health := component_health c |}.
Definition set_sensor_health v c := {|
  cid := cid c; state := state c; barrier := barrier c;
  train_position := train_position c; train_speed := train_speed c;
  train_distance := train_distance c; weather := weather c;
  countdown := countdown c; alarm := alarm c;
  traffic_lights := traffic_lights c; sensor_health := v;
  faults := faults c; confidence := confidence c;
  state_history := state_history c; last_state_change := last_state_change c;
  operation_count := operation_count c; component_health := component_health c |}.
Definition set_faults v c := {|
  cid := cid c; state := state c; barrier := barrier c;
  train_position := train_position c; train_speed := train_speed c;
  train_distance := train_distance c; weather := weather c;
  countdown := countdown c; alarm := alarm c;
  traffic_lights := traffic_lights c; sensor_health := sensor_health c;
  faults := v; confidence := confidence c;
  state_history := state_history c; last_state_change := last_state_change c;
  operation_count := operation_count c; component_health := component_health c |}.
Definition set_state_history v c := {|
  cid := cid c; state := state c; barrier := barrier c;
  train_position := train_position c; train_speed := train_speed c;
  train_distance := train_distance c; weather := weather c;
  countdown := countdown c; alarm := alarm c;
  traffic_lights := traffic_lights c; sensor_health := sensor_health c;
  faults := faults c; confidence := confidence c;
  state_history := v; last_state_change := last_state_change c;
  operation_count := operation_count c; component_health := component_health c |}.
Definition set_last_state_change v c := {|
  cid := cid c; state := state c; barrier := barrier c;
  train_position := train_position c; train_speed := train_speed c;
  train_distance := train_distance c; weather := weather c;
  countdown := countdown c; alarm := alarm c;
  traffic_lights := traffic_lights c; sensor_health := sensor_health c;
  faults := faults c; confidence := confidence c;
  state_history := state_history c; last_state_change := v;
  operation_count := operation_count c; component_health := component_health c |}.
Definition set_operation_count v c := {|
  cid := cid c; state := state c; barrier := barrier c;
  train_position := train_position c; train_speed := train_speed c;
  train_distance := train_distance c; weather := weather c;
  countdown := countdown c; alarm := alarm c;
  traffic_lights := traffic_lights c; sensor_health := sensor_health c;
  faults := faults c; confidence := confidence c;
  state_history := state_history c; last_state_change := last_state_change c;
  operation_count := v; component_health := component_health c |}.
Definition set_component_health v c := {|
  cid := cid c; state := state c; barrier := barrier c;
  train_position := train_position c; train_speed := train_speed c;
  train_distance := train_distance c; weather := weather c;
  countdown := countdown c; alarm := alarm c;
  traffic_lights := traffic_lights c; sensor_health := sensor_health c;
  faults := faults c; confidence := confidence c;
  state_history := state_history c; last_state_change := last_state_change c;
  operation_count := operation_count c; component_health := v |}.

(** [RailwayCrossing.__init__]; [now] is the [datetime.now()] it reads. *)
Definition new_crossing (crossing_id : Z) (now : Z) : RailwayCrossing := {|
  cid := crossing_id;
  state := IDLE;
  barrier := "UP";
  train_position := NInt (-100);
  train_speed := VFloat 0;
  train_distance := VFloat 0;
  weather := CLEAR;
  countdown := 10;
  alarm := "SILENT";
  traffic_lights := {| red := false; yellow := false; green := true |};
  sensor_health :=
    <["ir" := true]> (<["ultrasonic" := true]>
      (<["vibration" := true]> (<["rfid" := true]> ∅)));
  faults := [];
  confidence := 1;
  state_history := [];
  last_state_change := now;
  operation_count := 0;
  component_health :=
    [("barrier_motor", 100); ("traffic_lights", 100);
     ("alarm_system", 100); ("sensors", 100)]
|}.

Definition weather_multipliers (w : WeatherCondition) : float :=
  match w with
  | CLEAR => 1.0
  | RAIN => 1.3
  | FOG => 1.5
  | STORM => 1.8
  end.

Definition state_descriptions (s : CrossingState) : string :=
  match s with
  | IDLE => "Crossing is clear and ready"
  | WARNING => "Train detected - warning activated"
  | COUNTDOWN => "Countdown to barrier closure"
  | BARRIER_DOWN => "Barriers lowered - road closed"
  | TRAIN_PASSING => "Train is passing through"
  | EMERGENCY => "EMERGENCY - Manual intervention required"
  | MAINTENANCE => "Maintenance in progress"
  end.

Definition next_actions (s : CrossingState) : string :=
  match s with
  | IDLE => "Train detection"
  | WARNING => "Start countdown"
  | COUNTDOWN => "Lower barriers"
  | BARRIER_DOWN => "Train passage"
  | TRAIN_PASSING => "Raise barriers"
  | EMERGENCY => "Manual reset"
  | MAINTENANCE => "Complete maintenance"
  end.

Definition get_state_description (c : RailwayCrossing) : string :=
  state_descriptions (state c).
Definition get_next_action (c : RailwayCrossing) : string :=
  next_actions (state c).

(** Entries of [component_health], in insertion order. *)
Fixpoint health_get (k : string) (d : list (string * Z)) : option Z :=
  match d with
  | [] => None
  | (k', v) :: d' => if String.eqb k k' then Some v else health_get k d'
  end.

Fixpoint health_set (k : string) (v : Z) (d : list (string * Z))
    : list (string * Z) :=
  match d with
  | [] => [(k, v)]
  | (k', v') :: d' =>
      if String.eqb k k' then (k, v) :: d' else (k', v') :: health_set k v d'
  end.

(** What one call of [transition] reads from the clock and from [random]. *)
Record oracle : Type := {
  now_change : Z;       (* [datetime.now()] stored in [last_state_change] *)
  now_history : Z;      (* [datetime.now()] of the history entry *)
  rand_random : float;  (* [random.random()] *)
  rand_choice : nat;    (* the draw behind [random.choice] *)
  rand_randint : Z      (* the draw behind [random.randint(1, 3)] *)
}.

(** [random.choice(l)]: an element at an index below [len(l)]. *)
Definition random_choice {A} (draw : nat) (l : list A) : outcome A :=
  match l !! (draw mod length l)%nat with
  | Some a => Ok a
  | None => Raise IndexError
  end.

(** [random.randint(1, 3)]. *)
Definition random_randint_1_3 (draw : Z) : Z := 1 + draw mod 3.

(* ===================================================================== *)
(** ** Methods of [RailwayCrossing] *)
(* ===================================================================== *)

(** A method runs over the shared logger and the crossing itself. *)
Definition cworld : Type := SystemLogger * RailwayCrossing.

Definition self : M cworld RailwayCrossing := fun w => (w, Ok (snd w)).
Definition update (f : RailwayCrossing -> RailwayCrossing) : M cworld unit :=
  modify (fun w => (fst w, f (snd w))).
Definition log (event_type : string) (crossing_id : option Z) : M cworld unit :=
  modify (fun w => (log_event event_type crossing_id (fst w), snd w)).

(** [get_adjusted_time]: [int(base_time * multiplier)]. *)
Definition get_adjusted_time (c : RailwayCrossing) (base_time : Z) : outcome Z :=
  let multiplier := weather_multipliers (weather c) in
  let* product := num_mul (NInt base_time) (NFloat multiplier) in
  match product with
  | NInt z => Ok z
  | NFloat f => Z_of_float f
  end.

(** The table of [transition]. *)
Definition valid_transitions (s : CrossingState) : list CrossingState :=
  match s with
  | IDLE => [WARNING; EMERGENCY; MAINTENANCE]
  | WARNING => [COUNTDOWN; IDLE; EMERGENCY]
  | COUNTDOWN => [BARRIER_DOWN; EMERGENCY]
  | BARRIER_DOWN => [TRAIN_PASSING; EMERGENCY]
  | TRAIN_PASSING => [IDLE; EMERGENCY]
  | EMERGENCY => [IDLE]
  | MAINTENANCE => [IDLE]
  end.

(** [_update_outputs]. *)
Definition _update_outputs : M cworld unit :=
  c <- self ;;
  match state c with
  | IDLE =>
      update (set_barrier "UP") ;;
      update (set_traffic_lights {| red := false; yellow := false; green := true |}) ;;
      update (set_alarm "SILENT") ;;
      update (set_countdown 10)
  | WARNING =>
      update (set_barrier "UP") ;;
      update (set_traffic_lights {| red := false; yellow := true; green := false |}) ;;
      update (set_alarm "SLOW_BEEP") ;;
      t <- eval (get_adjusted_time c 10) ;;
      update (set_countdown t)
  | COUNTDOWN =>
      update (set_barrier "UP") ;;
      update (set_traffic_lights {| red := true; yellow := false; green := false |}) ;;
      update (set_alarm "FAST_BEEP")
  | BARRIER_DOWN =>
      update (set_barrier "DOWN") ;;
      update (set_traffic_lights {| red := true; yellow := false; green := false |}) ;;
      update (set_alarm "CONTINUOUS")
  | TRAIN_PASSING =>
      update (set_barrier "DOWN") ;;
      update (set_traffic_lights {| red := true; yellow := false; green := false |}) ;;
      update (set_alarm "SILENT")
  | EMERGENCY =>
      update (set_barrier "UP") ;;
      update (set_traffic_lights {| red := true; yellow := true; green := false |}) ;;
      update (set_alarm "CONTINUOUS") ;;
      update (set_train_position (NInt (-100)))
  | MAINTENANCE =>
      update (set_barrier "UP") ;;
      update (set_traffic_lights {| red := false; yellow := false; green := false |}) ;;
      update (set_alarm "SILENT")
  end.

(** The body of the [try] block of the degradation step of [transition]. *)
Definition degrade_component (o : oracle) : M cworld unit :=
  c <- self ;;
  component <- eval (random_choice (rand_choice o) (map fst (component_health c))) ;;
  old_value <- eval (match health_get component (component_health c) with
                     | Some v => Ok v
                     | None => Raise KeyError
                     end) ;;
  let degradation := random_randint_1_3 (rand_randint o) in
  update (set_component_health
            (health_set component (Z.max 50 (old_value - degradation))
               (component_health c))) ;;
  log "COMPONENT_DEGRADED" (Some (cid c)).

(** The degradation step of [transition]: with probability 0.1, inside
    [try ... except Exception]. *)
Definition degradation_step (o : oracle) : M cworld unit :=
  if (rand_random o <? 0.1)%float
  then try_except (degrade_component o) (fun _ => ret tt)
  else ret tt.

(** The "log specific events" chain of [transition]; [c] is the crossing
    before the state update. *)
Definition log_specific_event (new_state : CrossingState) (c : RailwayCrossing)
    : M cworld unit :=
  match new_state with
  | WARNING => log "TRAIN_APPROACH" (Some (cid c))
  | COUNTDOWN =>
      t <- eval (get_adjusted_time c 10) ;;
      update (set_countdown t) ;;
      log "COUNTDOWN_START" (Some (cid c))
  | BARRIER_DOWN => log "BARRIER_DOWN" (Some (cid c))
  | TRAIN_PASSING => log "TRAIN_PASS" (Some (cid c))
  | EMERGENCY => log "EMERGENCY" (Some (cid c))
  | IDLE =>
      if bool_decide (state c ≠ IDLE) then log "RESET" (Some (cid c))
      else ret tt
  | MAINTENANCE => ret tt
  end.

(** "Record history": append the entry, keep the last 10. *)
Definition record_history (old_state new_state : CrossingState) (o : oracle)
    (c : RailwayCrossing) : RailwayCrossing :=
  let appended :=
    state_history c ++
      [{| h_timestamp := now_history o; h_from := old_state;
          h_to := new_state; h_weather := weather c |}] in
  set_state_history
    (if (10 <? length appended)%nat then tail appended else appended) c.

(** [RailwayCrossing.transition]. *)
Definition transition (new_state : CrossingState) (o : oracle) : M cworld bool :=
  c <- self ;;
  if negb (bool_decide (new_state ∈ valid_transitions (state c))) then
    log "INVALID_TRANSITION" (Some (cid c)) ;;
    ret false
  else
    log "STATE_CHANGE" (Some (cid c)) ;;
    log_specific_event new_state c ;;
    let old_state := state c in
    update (set_state new_state) ;;
    update (set_last_state_change (now_change o)) ;;
    update (record_history old_state new_state o) ;;
    _update_outputs ;;
    update (fun c' => set_operation_count (operation_count c' + 1) c') ;;
    degradation_step o ;;
    ret true.

(** [RailwayCrossing.calculate_arrival_time]. *)
Definition calculate_arrival_time (c : RailwayCrossing) : outcome float :=
  let* speed := as_num (train_speed c) in
  let* stop :=
    if num_leb speed (NInt 0) then Ok true
    else let* distance := as_num (train_distance c) in
         Ok (num_leb distance (NInt 0)) in
  if stop then Ok infinity
  else
    let* speed_mps := num_mul speed (NFloat (1000 / 3600)) in
    if num_leb speed_mps (NInt 0) then Ok infinity
    else
      let* distance := as_num (train_distance c) in
      num_truediv distance speed_mps.

(* ===================================================================== *)
(** ** [RailwaySystem] *)
(* ===================================================================== *)

(** The entries of [global_state] and [statistics] that the command
    processor and the scheduler write. *)
Record GlobalState : Type := {
  g_emergency : bool;
  g_maintenance : bool;
  g_weather : WeatherCondition;
  g_uptime : Z;
  g_system_health : num;
  g_total_trains : Z
}.

Record Statistics : Type := {
  total_operations : Z;
  successful_transitions : Z;
  failed_transitions : Z;
  last_updated : Z
}.

Record RailwaySystem : Type := {
  logger : SystemLogger;
  crossings : list RailwayCrossing;
  global_state : GlobalState;
  statistics : Statistics
}.

Definition set_logger v s := {|
  logger := v; crossings := crossings s;
  global_state := global_state s; statistics := statistics s |}.
Definition set_crossings v s := {|
  logger := logger s; crossings := v;
  global_state := global_state s; statistics := statistics s |}.
Definition set_global_state v s := {|
  logger := logger s; crossings := crossings s;
  global_state := v; statistics := statistics s |}.
Definition set_statistics v s := {|
  logger := logger s; crossings := crossings s;
  global_state := global_state s; statistics := v |}.

Definition set_g_emergency v g := {|
  g_emergency := v; g_maintenance := g_maintenance g; g_weather := g_weather g;
  g_uptime := g_uptime g; g_system_health := g_system_health g;
  g_total_trains := g_total_trains g |}.
Definition set_g_maintenance v g := {|
  g_emergency := g_emergency g; g_maintenance := v; g_weather := g_weather g;
  g_uptime := g_uptime g; g_system_health := g_system_health g;
  g_total_trains := g_total_trains g |}.
Definition set_g_weather v g := {|
  g_emergency := g_emergency g; g_maintenance := g_maintenance g; g_weather := v;
  g_uptime := g_uptime g; g_system_health := g_system_health g;
  g_total_trains := g_total_trains g |}.
Definition set_g_uptime v g := {|
  g_emergency := g_emergency g; g_maintenance := g_maintenance g;
  g_weather := g_weather g; g_uptime := v;
  g_system_health := g_system_health g; g_total_trains := g_total_trains g |}.
Definition set_g_system_health v g := {|
  g_emergency := g_emergency g; g_maintenance := g_maintenance g;
  g_weather := g_weather g; g_uptime := g_uptime g;
  g_system_health := v; g_total_trains := g_total_trains g |}.
Definition set_g_total_trains v g := {|
  g_emergency := g_emergency g; g_maintenance := g_maintenance g;
  g_weather := g_weather g; g_uptime := g_uptime g;
  g_system_health := g_system_health g; g_total_trains := v |}.

(** [RailwaySystem.__init__] with [_initialize_crossings]: four crossings,
    ids 0 to 3; [nows j] is the clock read by the constructor of crossing
    [j], [now_stats] the one stored in [last_updated]. *)
Definition new_system (nows : nat -> Z) (now_stats : Z) : RailwaySystem := {|
  logger := log_event "SYSTEM_START" None new_logger;
  crossings := map (fun j => new_crossing (Z.of_nat j) (nows j)) (seq 0 4);
  global_state := {| g_emergency := false; g_maintenance := false;
                     g_weather := CLEAR; g_uptime := 0;
                     g_system_health := NFloat 100; g_total_trains := 0 |};
  statistics := {| total_operations := 0; successful_transitions := 0;
                   failed_transitions := 0; last_updated := now_stats |}
|}.

(** Run a method of the crossing at index [i] of [self.crossings]. *)
Definition on_crossing {A} (i : nat) (m : M cworld A) : M RailwaySystem A :=
  fun s =>
    match crossings s !! i with
    | None => (s, Raise IndexError)
    | Some c =>
        let '(w, r) := m (logger s, c) in
        (set_crossings (<[i := snd w]> (crossings s)) (set_logger (fst w) s), r)
    end.

Definition sys_log (event_type : string) (crossing_id : option Z)
    : M RailwaySystem unit :=
  modify (fun s => set_logger (log_event event_type crossing_id (logger s)) s).
Definition update_global (f : GlobalState -> GlobalState) : M RailwaySystem unit :=
  modify (fun s => set_global_state (f (global_state s)) s).
Definition update_statistics (f : Statistics -> Statistics)
    : M RailwaySystem unit :=
  modify (fun s => set_statistics (f (statistics s)) s).

(** [for j, crossing in enumerate(self.crossings): body]. *)
Fixpoint for_each {W} (l : list nat) (body : nat -> M W unit) : M W unit :=
  match l with
  | [] => ret tt
  | j :: l' => body j ;; for_each l' body
  end.

Definition for_crossings (body : nat -> M RailwaySystem unit)
    : M RailwaySystem unit :=
  s <- get ;;
  for_each (seq 0 (length (crossings s))) body.

(** *** [process_command] *)

Inductive error_message : Type :=
| InvalidCrossingID (crossing_id : Z)   (* ['Invalid crossing ID: ...'] *)
| UnknownCommand (command : string)     (* ['Unknown command: ...'] *)
| InternalError (e : exn).              (* [str(e)] of a caught exception *)

Inductive command_result : Type :=
| Done (success : bool) (new_state : CrossingState)
       (state_description next_action : string)
| Failed (error : error_message).

(** [(params or {}).items()] and [params.get]: only a dict has them. *)
Definition as_dict (params : pyval) : outcome (list (string * pyval)) :=
  match params with
  | VDict d => Ok d
  | _ => Raise AttributeError
  end.

Definition params_items (params : pyval) : outcome (list (string * pyval)) :=
  if truthy params then as_dict params else Ok [].

(** [v == 'literal']. *)
Definition str_eq (v : pyval) (literal : string) : bool :=
  match v with
  | VStr s => String.eqb s literal
  | _ => false
  end.

(** [WeatherCondition[params['weather'].upper()]]. *)
Definition weather_of_param (v : pyval) : outcome WeatherCondition :=
  match v with
  | VStr s =>
      match WeatherCondition_of_name (upper s) with
      | Some w => Ok w
      | None => Raise KeyError
      end
  | _ => Raise AttributeError
  end.

(** The command branches; [None] is the early return of an unknown
    command, [Some success] falls through to the statistics update. *)
Definition run_command (i : nat) (crossing_id : Z) (command : string)
    (params : pyval) (os : nat -> oracle) : M RailwaySystem (option bool) :=
  if String.eqb command "approach" then
    (if truthy params then
       d <- eval (as_dict params) ;;
       on_crossing i (update (set_train_speed
                        (default (VFloat 60) (dict_get "train_speed" d)))) ;;
       on_crossing i (update (set_train_distance
                        (default (VFloat 200) (dict_get "train_distance" d)))) ;;
       match dict_get "weather" d with
       | Some v =>
           try_except
             (w <- eval (weather_of_param v) ;;
              on_crossing i (update (set_weather w)) ;;
              update_global (set_g_weather w) ;;
              sys_log "WEATHER_CHANGE" (Some crossing_id))
             (fun _ => on_crossing i (update (set_weather CLEAR)))
       | None => ret tt
       end
     else ret tt) ;;
    success <- on_crossing i (transition WARNING (os i)) ;;
    (if success then on_crossing i (update (set_train_position (NInt 0)))
     else ret tt) ;;
    ret (Some success)
  else if String.eqb command "countdown" then
    success <- on_crossing i (transition COUNTDOWN (os i)) ;;
    ret (Some success)
  else if String.eqb command "barrier_down" then
    success <- on_crossing i (transition BARRIER_DOWN (os i)) ;;
    ret (Some success)
  else if String.eqb command "train_pass" then
    success <- on_crossing i (transition TRAIN_PASSING (os i)) ;;
    (if success then
       on_crossing i (update (set_train_position (NInt 100))) ;;
       update_global (fun g => set_g_total_trains (g_total_trains g + 1) g)
     else ret tt) ;;
    ret (Some success)
  else if String.eqb command "reset" then
    success <- on_crossing i (transition IDLE (os i)) ;;
    (if success then
       on_crossing i (update (set_train_position (NInt (-100)))) ;;
       on_crossing i (update (set_train_speed (VInt 0))) ;;
       on_crossing i (update (set_train_distance (VInt 0)))
     else ret tt) ;;
    ret (Some success)
  else if String.eqb command "emergency" then
    update_global (fun g => set_g_emergency (negb (g_emergency g)) g) ;;
    s <- get ;;
    (if g_emergency (global_state s) then
       for_crossings (fun j =>
         _ <- on_crossing j (transition EMERGENCY (os j)) ;; ret tt) ;;
       sys_log "EMERGENCY" None
     else
       for_crossings (fun j =>
         _ <- on_crossing j (transition IDLE (os j)) ;; ret tt) ;;
       sys_log "EMERGENCY_CLEAR" None) ;;
    ret (Some true)
  else if String.eqb command "maintenance" then
    success <- on_crossing i (transition MAINTENANCE (os i)) ;;
    (if success then update_global (set_g_maintenance true) else ret tt) ;;
    ret (Some success)
  else if String.eqb command "inject_fault" then
    fault_type <-
      (if truthy params then
         d <- eval (as_dict params) ;;
         ret (default (VStr "sensor_ir") (dict_get "fault_type" d))
       else ret (VStr "sensor_ir")) ;;
    (if str_eq fault_type "sensor_ir" then
       on_crossing i (update (fun c =>
         set_sensor_health (<["ir" := false]> (sensor_health c)) c)) ;;
       on_crossing i (update (fun c =>
         set_faults (faults c ++ ["IR_SENSOR_FAULT"]) c))
     else if str_eq fault_type "sensor_vib" then
       on_crossing i (update (fun c =>
         set_sensor_health (<["vibration" := false]> (sensor_health c)) c)) ;;
       on_crossing i (update (fun c =>
         set_faults (faults c ++ ["VIBRATION_SENSOR_FAULT"]) c))
     else if str_eq fault_type "barrier_stuck" then
       on_crossing i (update (fun c =>
         set_faults (faults c ++ ["BARRIER_STUCK"]) c))
     else ret tt) ;;
    sys_log "FAULT_INJECTED" (Some crossing_id) ;;
    ret (Some true)
  else if String.eqb command "clear_faults" then
    on_crossing i (update (set_sensor_health
      (<["ir" := true]> (<["vibration" := true]> (<["rfid" := true]> ∅))))) ;;
    on_crossing i (update (set_faults [])) ;;
    sys_log "FAULT_CLEARED" (Some crossing_id) ;;
    ret (Some true)
  else ret None.

(** The "update statistics" block of [process_command]. *)
Definition count_operation (success : bool) (now : Z) (st : Statistics)
    : Statistics := {|
  total_operations := total_operations st + 1;
  successful_transitions :=
    if success then successful_transitions st + 1
    else successful_transitions st;
  failed_transitions :=
    if success then failed_transitions st
    else failed_transitions st + 1;
  last_updated := now
|}.

(** [RailwaySystem.process_command]; [now] is the clock read for
    [last_updated]. An exception that leaves the function is the [Raise]
    outcome of the whole computation. *)
Definition process_command (crossing_id : Z) (command : string)
    (params : pyval) (os : nat -> oracle) (now : Z)
    : M RailwaySystem command_result :=
  s <- get ;;
  if (crossing_id <? 0) || (Z.of_nat (length (crossings s)) <=? crossing_id) then
    ret (Failed (InvalidCrossingID crossing_id))
  else
    let i := Z.to_nat crossing_id in
    on_crossing i (ret tt) ;;
    try_except
      (eval (params_items params) ;;
       sys_log "USER_COMMAND" (Some crossing_id) ;;
       r <- run_command i crossing_id command params os ;;
       match r with
       | None => ret (Failed (UnknownCommand command))
       | Some success =>
           update_statistics (count_operation success now) ;;
           c <- on_crossing i self ;;
           ret (Done success (state c) (get_state_description c)
                  (get_next_action c))
       end)
      (fun e =>
         sys_log "SYSTEM_ERROR" (Some crossing_id) ;;
         ret (Failed (InternalError e))).

(** *** [_can_advance_state] and one iteration of [background_task] *)

(** [RailwaySystem._can_advance_state]. *)
Definition _can_advance_state (c : RailwayCrossing) : outcome bool :=
  if bool_decide (state c = EMERGENCY) || bool_decide (state c = MAINTENANCE)
  then Ok false
  else if bool_decide (state c = COUNTDOWN) && (0 <? countdown c)
  then Ok false
  else if bool_decide (state c = WARNING) then
    let* arrival := calculate_arrival_time c in
    if num_gtb (NFloat arrival) (NInt 5) then Ok false else Ok true
  else Ok true.

(** What the scheduler reads for one crossing in one tick: the clock of
    [time_in_state] and the inputs of the transition it may fire. *)
Record tick_input : Type := {
  tick_now : Z;
  tick_oracle : oracle
}.

(** [time_in_state]: elapsed microseconds; [time_in_state >= k] and
    [int(time_in_state)] in whole seconds. *)
Definition time_in_state (now : Z) (c : RailwayCrossing) : Z :=
  now - last_state_change c.
Definition dwell_ge (now : Z) (c : RailwayCrossing) (seconds : Z) : bool :=
  seconds * 1000000 <=? time_in_state now c.
Definition dwell_seconds (now : Z) (c : RailwayCrossing) : Z :=
  Z.quot (time_in_state now c) 1000000.

(** "Update train positions" for one crossing. *)
Definition update_train_position : M cworld unit :=
  c <- self ;;
  if bool_decide (state c ∈ [WARNING; COUNTDOWN; BARRIER_DOWN; TRAIN_PASSING])
  then
    if num_ltb (train_position c) (NInt 100) then
      speed <- eval (as_num (train_speed c)) ;;
      speed_factor <- eval (num_truediv speed (NInt 100)) ;;
      scaled <- eval (num_mul (NInt 5) (NFloat speed_factor)) ;;
      let increment := py_max (NInt 2) (py_min (NInt 10) scaled) in
      moved <- eval (num_add (train_position c) increment) ;;
      update (set_train_position (py_min (NInt 100) moved))
    else ret tt
  else ret tt.

(** "Auto-advance states" for one crossing. *)
Definition auto_advance (i : tick_input) : M cworld unit :=
  c <- self ;;
  let now := tick_now i in
  let o := tick_oracle i in
  if bool_decide (state c = WARNING) then
    if dwell_ge now c 3 then
      can <- eval (_can_advance_state c) ;;
      if can then _ <- transition COUNTDOWN o ;; ret tt else ret tt
    else ret tt
  else if bool_decide (state c = COUNTDOWN) && (0 <? countdown c) then
    adjusted <- eval (get_adjusted_time c 10) ;;
    let new_countdown := Z.max 0 (adjusted - dwell_seconds now c) in
    (if bool_decide (new_countdown ≠ countdown c)
     then update (set_countdown new_countdown) else ret tt) ;;
    c' <- self ;;
    if countdown c' =? 0 then
      can <- eval (_can_advance_state c') ;;
      if can then _ <- transition BARRIER_DOWN o ;; ret tt else ret tt
    else ret tt
  else if bool_decide (state c = BARRIER_DOWN) then
    if dwell_ge now c 2 then
      can <- eval (_can_advance_state c) ;;
      if can then _ <- transition TRAIN_PASSING o ;; ret tt else ret tt
    else ret tt
  else if bool_decide (state c = TRAIN_PASSING)
          && num_geb (train_position c) (NInt 100) then
    if dwell_ge now c 3 then
      can <- eval (_can_advance_state c) ;;
      if can then
        _ <- transition IDLE o ;;
        update (set_train_position (NInt (-100)))
      else ret tt
    else ret tt
  else ret tt.

(** The loop body of the scheduler for one crossing. *)
Definition tick_crossing (i : tick_input) : M cworld unit :=
  update_train_position ;;
  auto_advance i.

(** [sum(1 for healthy in c.sensor_health.values() if not healthy)]. *)
Definition faulty_sensors (c : RailwayCrossing) : Z :=
  Z.of_nat (length (filter (fun kv => snd kv = false)
                      (map_to_list (sensor_health c)))).

(** "Update system health". *)
Definition update_system_health : M RailwaySystem unit :=
  s <- get ;;
  let total_faults :=
    foldr Z.add 0 (map (fun c => Z.of_nat (length (faults c))) (crossings s)) in
  let sensor_health := foldr Z.add 0 (map faulty_sensors (crossings s)) in
  update_global (set_g_system_health
    (NInt (Z.max 0 (100 - (total_faults * 5 + sensor_health * 3))))).

(** One iteration of the [while True] loop of [background_task] (the
    [time.sleep(1)] between iterations is not part of the state). *)
Definition background_tick (ins : nat -> tick_input) : M RailwaySystem unit :=
  try_except
    (update_global (fun g => set_g_uptime (g_uptime g + 1) g) ;;
     for_crossings (fun j => on_crossing j (tick_crossing (ins j))) ;;
     update_system_health)
    (fun _ => sys_log "SYSTEM_ERROR" None).

(** *** Views of a crossing: the timeline and the maintenance check

    Text is held as UTF-8 bytes. *)

(** [state.value]. *)
Definition state_value (s : CrossingState) : string :=
  match s with
  | IDLE => "IDLE"
  | WARNING => "WARNING"
  | COUNTDOWN => "COUNTDOWN"
  | BARRIER_DOWN => "BARRIER_DOWN"
  | TRAIN_PASSING => "TRAIN_PASSING"
  | EMERGENCY => "EMERGENCY"
  | MAINTENANCE => "MAINTENANCE"
  end.

(** [l.index(x) if x in l else -1]. *)
Fixpoint index_of (x : CrossingState) (l : list CrossingState) : option nat :=
  match l with
  | [] => None
  | y :: l' => if bool_decide (y = x) then Some 0%nat
               else option_map S (index_of x l')
  end.

Definition index_or_minus_1 (x : CrossingState) (l : list CrossingState) : Z :=
  match index_of x l with
  | Some n => Z.of_nat n
  | None => -1
  end.

(** [RailwayCrossing._is_state_completed]. *)
Definition _is_state_completed (c : RailwayCrossing) (s : CrossingState) : bool :=
  if bool_decide (state c = EMERGENCY) || bool_decide (state c = MAINTENANCE)
  then false
  else
    let state_order := [IDLE; WARNING; COUNTDOWN; BARRIER_DOWN; TRAIN_PASSING] in
    let current_index := index_or_minus_1 (state c) state_order in
    let check_index := index_or_minus_1 s state_order in
    (0 <=? check_index) && (check_index <? current_index).

(** [RailwayCrossing._get_state_title] and [_get_state_icon]. *)
Definition _get_state_title (s : CrossingState) : string :=
  match s with
  | IDLE => "Idle State"
  | WARNING => "Warning Activated"
  | COUNTDOWN => "Countdown"
  | BARRIER_DOWN => "Barriers Down"
  | TRAIN_PASSING => "Train Passing"
  | EMERGENCY => "Emergency"
  | MAINTENANCE => "Maintenance"
  end.

Definition _get_state_icon (s : CrossingState) : string :=
  match s with
  | IDLE => "✅"
  | WARNING => "⚠️"
  | COUNTDOWN => "⏱️"
  | BARRIER_DOWN => "⬇️"
  | TRAIN_PASSING => "🚆"
  | EMERGENCY => "🚨"
  | MAINTENANCE => "🔧"
  end.

Record timeline_step : Type := {
  tl_step : Z;
  tl_state : string;
  tl_title : string;
  tl_description : string;
  tl_is_current : bool;
  tl_is_completed : bool;
  tl_icon : string
}.

(** [RailwayCrossing.get_state_timeline]. *)
Definition get_state_timeline (c : RailwayCrossing) : list timeline_step :=
  let states_in_order :=
    [IDLE; WARNING; COUNTDOWN; BARRIER_DOWN; TRAIN_PASSING; IDLE] in
  imap (fun i s =>
          {| tl_step := Z.of_nat i + 1;
             tl_state := state_value s;
             tl_title := _get_state_title s;
             tl_description := state_descriptions s;
             tl_is_current := bool_decide (s = state c);
             tl_is_completed := _is_state_completed c s;
             tl_icon := _get_state_icon s |})
       states_in_order.

(** [s.replace('_', ' ')] and [s.title()] on ASCII text (the component
    names are ASCII). *)
Fixpoint replace_underscore (s : string) : string :=
  match s with
  | EmptyString => EmptyString
  | String c s' =>
      String (if Ascii.eqb c "_" then " "%char else c) (replace_underscore s')
  end.

Definition is_lower (c : Ascii.ascii) : bool :=
  let n := Ascii.nat_of_ascii c in ((97 <=? n) && (n <=? 122))%nat.
Definition is_upper (c : Ascii.ascii) : bool :=
  let n := Ascii.nat_of_ascii c in ((65 <=? n) && (n <=? 90))%nat.
Definition lower_ascii (c : Ascii.ascii) : Ascii.ascii :=
  if is_upper c then Ascii.ascii_of_nat (Ascii.nat_of_ascii c + 32) else c.

Fixpoint title_from (previous_is_cased : bool) (s : string) : string :=
  match s with
  | EmptyString => EmptyString
  | String c s' =>
      if is_lower c then
        String (if previous_is_cased then c else upper_ascii c)
               (title_from true s')
      else if is_upper c then
        String (if previous_is_cased then lower_ascii c else c)
               (title_from true s')
      else String c (title_from false s')
  end.

Definition title (s : string) : string := title_from false s.

(** [RailwayCrossing.check_maintenance]: the warnings, in the order in which
    they are appended. *)
Definition check_maintenance (c : RailwayCrossing) : list string :=
  (if 10 <? operation_count c
   then ["⚠️ High usage (" +:+ pretty (operation_count c) +:+ " operations)"]
   else []) ++
  flat_map (fun kv =>
              let component := fst kv in
              let health := snd kv in
              if health <? 80 then
                ["🔧 " +:+ title (replace_underscore component)
                   +:+ " at " +:+ pretty health +:+ "%"]
              else if health <? 90 then
                ["📋 " +:+ title (replace_underscore component)
                   +:+ " check soon"]
              else [])
           (component_health c) ++
  (if (0 <? length (faults c))%nat
   then ["🚨 " +:+ pretty (Z.of_nat (length (faults c))) +:+ " active fault(s)"]
   else []) ++
  (if 0 <? faulty_sensors c
   then ["📡 " +:+ pretty (faulty_sensors c) +:+ " sensor(s) faulty"]
   else []).

(* ===================================================================== *)
(** ** [CrossingFSM] of [core/fsm.py]: the parts that differ *)
(* ===================================================================== *)

Module CrossingFSM.

Inductive CrossingState : Type :=
| IDLE | WARNING | COUNTDOWN | BARRIER_DOWN | TRAIN_PASSING | BARRIER_UP
| EMERGENCY | MAINTENANCE | CALIBRATION | FAIL_SAFE.

#[global] Instance fsm_state_eq_dec : EqDecision CrossingState.
Proof. solve_decision. Defined.

(** The table of [_is_valid_transition]. *)
Definition valid_transitions (s : CrossingState) : list CrossingState :=
  match s with
  | IDLE => [WARNING; EMERGENCY; MAINTENANCE; CALIBRATION]
  | WARNING => [COUNTDOWN; IDLE; EMERGENCY]
  | COUNTDOWN => [BARRIER_DOWN; EMERGENCY]
  | BARRIER_DOWN => [TRAIN_PASSING; EMERGENCY]
  | TRAIN_PASSING => [BARRIER_UP; EMERGENCY]
  | BARRIER_UP => [IDLE; EMERGENCY]
  | EMERGENCY => [IDLE; FAIL_SAFE]
  | MAINTENANCE => [IDLE]
  | CALIBRATION => [IDLE]
  | FAIL_SAFE => [IDLE]
  end.

Definition _is_valid_transition (current_state new_state : CrossingState) : bool :=
  bool_decide (new_state ∈ valid_transitions current_state).

(** [CrossingFSM.calculate_arrival_time]: only the speed is tested. *)
Definition calculate_arrival_time (train_speed train_distance : pyval)
    : outcome float :=
  let* speed := as_num train_speed in
  if num_leb speed (NInt 0) then Ok infinity
  else
    let* speed_mps := num_mul speed (NFloat (1000 / 3600)) in
    if num_leb speed_mps (NInt 0) then Ok infinity
    else
      let* distance := as_num train_distance in
      num_truediv distance speed_mps.

(** [state.name] and [weather.name]. *)
Definition name (s : CrossingState) : string :=
  match s with
  | IDLE => "IDLE"
  | WARNING => "WARNING"
  | COUNTDOWN => "COUNTDOWN"
  | BARRIER_DOWN => "BARRIER_DOWN"
  | TRAIN_PASSING => "TRAIN_PASSING"
  | BARRIER_UP => "BARRIER_UP"
  | EMERGENCY => "EMERGENCY"
  | MAINTENANCE => "MAINTENANCE"
  | CALIBRATION => "CALIBRATION"
  | FAIL_SAFE => "FAIL_SAFE"
  end.

Definition weather_name (w : WeatherCondition) : string :=
  match w with
  | CLEAR => "CLEAR"
  | RAIN => "RAIN"
  | FOG => "FOG"
  | STORM => "STORM"
  end.

(** The table of [_get_possible_transitions]. *)
Definition _get_possible_transitions (current_state : CrossingState)
    : list string :=
  match current_state with
  | IDLE => ["WARNING"; "EMERGENCY"; "MAINTENANCE"; "CALIBRATION"]
  | WARNING => ["COUNTDOWN"; "IDLE"; "EMERGENCY"]
  | COUNTDOWN => ["BARRIER_DOWN"; "EMERGENCY"]
  | BARRIER_DOWN => ["TRAIN_PASSING"; "EMERGENCY"]
  | TRAIN_PASSING => ["BARRIER_UP"; "EMERGENCY"]
  | BARRIER_UP => ["IDLE"; "EMERGENCY"]
  | EMERGENCY => ["IDLE"; "FAIL_SAFE"]
  | MAINTENANCE => ["IDLE"]
  | CALIBRATION => ["IDLE"]
  | FAIL_SAFE => ["IDLE"]
  end.

(** An entry of [state_history]. *)
Record transition_record : Type := {
  t_timestamp : Z;
  t_from : string;
  t_to : string;
  t_weather : string;
  t_train_speed : pyval;
  t_distance : pyval
}.

(** The fields of a [CrossingFSM] that its methods read or write (the
    configuration, [arrival_time], [sensor_health] and [faults] are only
    initialised). *)
Record CrossingFSM : Type := {
  current_state : CrossingState;
  previous_state : CrossingState;
  weather : WeatherCondition;
  train_speed : pyval;
  train_distance : pyval;
  state_history : list transition_record
}.

(** [CrossingFSM.__init__]. *)
Definition new_fsm : CrossingFSM := {|
  current_state := IDLE;
  previous_state := IDLE;
  weather := CLEAR;
  train_speed := VFloat 0;
  train_distance := VFloat 0;
  state_history := []
|}.

(** [CrossingFSM.transition]; [now] is the clock read for the history entry.
    The state entry actions of [_on_state_entry] wait and log, and change no
    field: [_verify_train_passage] is constantly true, so the forced
    EMERGENCY of [_monitor_train_passage] is never taken. *)
Definition transition (new_state : CrossingState) (force : bool) (now : Z)
    (fsm : CrossingFSM) : CrossingFSM * bool :=
  if negb (_is_valid_transition (current_state fsm) new_state) && negb force
  then (fsm, false)
  else
    let entry := {| t_timestamp := now;
                    t_from := name (current_state fsm);
                    t_to := name new_state;
                    t_weather := weather_name (weather fsm);
                    t_train_speed := train_speed fsm;
                    t_distance := train_distance fsm |} in
    ({| current_state := new_state;
        previous_state := current_state fsm;
        weather := weather fsm;
        train_speed := train_speed fsm;
        train_distance := train_distance fsm;
        state_history := state_history fsm ++ [entry] |}, true).

Record state_diagram : Type := {
  d_states : list string;
  d_current_state : string;
  d_possible_transitions : list string;
  d_history : list transition_record
}.

(** [CrossingFSM.get_state_diagram]. *)
Definition get_state_diagram (fsm : CrossingFSM) : state_diagram := {|
  d_states := map name [IDLE; WARNING; COUNTDOWN; BARRIER_DOWN; TRAIN_PASSING;
                        BARRIER_UP; EMERGENCY; MAINTENANCE; CALIBRATION;
                        FAIL_SAFE];
  d_current_state := name (current_state fsm);
  d_possible_transitions := _get_possible_transitions (current_state fsm);
  d_history := match state_history fsm with
               | [] => []
               | _ => slice_from (-10) (state_history fsm)
               end
|}.

(** Successive calls of [transition]. *)
Fixpoint run (steps : list (CrossingState * bool * Z)) (fsm : CrossingFSM)
    : CrossingFSM :=
  match steps with
  | [] => fsm
  | (new_state, force, now) :: steps' =>
      run steps' (fst (transition new_state force now fsm))
  end.

End CrossingFSM.

(* ===================================================================== *)
(** ** Specification-level definitions *)
(* ===================================================================== *)

(** The value of [get_adjusted_time(10)] under each weather. *)
Definition adjusted_10 (w : WeatherCondition) : Z :=
  match w with
  | CLEAR => 10
  | RAIN => 13
  | FOG => 15
  | STORM => 18
  end.

(** The crossing after [_update_outputs], as a function of the crossing. *)
Definition derived_outputs (c : RailwayCrossing) : RailwayCrossing :=
  match state c with
  | IDLE =>
      set_countdown 10 (set_alarm "SILENT" (set_traffic_lights
        {| red := false; yellow := false; green := true |} (set_barrier "UP" c)))
  | WARNING =>
      set_countdown (adjusted_10 (weather c)) (set_alarm "SLOW_BEEP"
        (set_traffic_lights {| red := false; yellow := true; green := false |}
           (set_barrier "UP" c)))
  | COUNTDOWN =>
      set_alarm "FAST_BEEP" (set_traffic_lights
        {| red := true; yellow := false; green := false |} (set_barrier "UP" c))
  | BARRIER_DOWN =>
      set_alarm "CONTINUOUS" (set_traffic_lights
        {| red := true; yellow := false; green := false |} (set_barrier "DOWN" c))
  | TRAIN_PASSING =>
      set_alarm "SILENT" (set_traffic_lights
        {| red := true; yellow := false; green := false |} (set_barrier "DOWN" c))
  | EMERGENCY =>
      set_train_position (NInt (-100)) (set_alarm "CONTINUOUS"
        (set_traffic_lights {| red := true; yellow := true; green := false |}
           (set_barrier "UP" c)))
  | MAINTENANCE =>
      set_alarm "SILENT" (set_traffic_lights
        {| red := false; yellow := false; green := false |} (set_barrier "UP" c))
  end.

(** The crossing after the degradation step. *)
Definition wear (o : oracle) (c : RailwayCrossing) : RailwayCrossing :=
  if (rand_random o <? 0.1)%float then
    match random_choice (rand_choice o) (map fst (component_health c)) with
    | Ok component =>
        match health_get component (component_health c) with
        | Some old_value =>
            set_component_health
              (health_set component
                 (Z.max 50 (old_value - random_randint_1_3 (rand_randint o)))
                 (component_health c)) c
        | None => c
        end
    | Raise _ => c
    end
  else c.

(** The crossing after a transition that the table allows. *)
Definition entered (new_state : CrossingState) (o : oracle)
    (c : RailwayCrossing) : RailwayCrossing :=
  let c1 := if bool_decide (new_state = COUNTDOWN)
            then set_countdown (adjusted_10 (weather c)) c else c in
  let c2 := set_last_state_change (now_change o) (set_state new_state c1) in
  let c3 := record_history (state c) new_state o c2 in
  let c4 := derived_outputs c3 in
  let c5 := set_operation_count (operation_count c4 + 1) c4 in
  wear o c5.

(** The crossing after a call of [transition], allowed or not. *)
Definition after_transition (new_state : CrossingState) (o : oracle)
    (c : RailwayCrossing) : RailwayCrossing :=
  if bool_decide (new_state ∈ valid_transitions (state c))
  then entered new_state o c else c.

(** Hoare triples over [M]: from a state in [P], the computation ends in a
    state in [Q a] when it returns [a], in [E e] when it raises [e]. *)
Definition hoare {W A} (P : W -> Prop) (m : M W A)
    (Q : A -> W -> Prop) (E : exn -> W -> Prop) : Prop :=
  forall w, P w ->
    match m w with
    | (w', Ok a) => Q a w'
    | (w', Raise e) => E e w'
    end.

(** [P] holds after [m] however it ends. *)
Definition preserves {W A} (P : W -> Prop) (m : M W A) : Prop :=
  hoare P m (fun _ => P) (fun _ => P).

(** [m] keeps [P] and never raises. *)
Definition total {W A} (P : W -> Prop) (m : M W A) : Prop :=
  hoare P m (fun _ => P) (fun _ _ => False).

(** The barrier invariant of one crossing and of the system. *)
Definition barrier_inv (c : RailwayCrossing) : Prop :=
  barrier c = "DOWN" -> state c = BARRIER_DOWN \/ state c = TRAIN_PASSING.

Definition all_crossings (P : RailwayCrossing -> Prop) (s : RailwaySystem) : Prop :=
  Forall P (crossings s).

(** The crossing at index [j] exists and satisfies [P]. *)
Definition crossing_at (j : nat) (P : RailwayCrossing -> Prop)
    (s : RailwaySystem) : Prop :=
  exists c, crossings s !! j = Some c /\ P c.

(** The countdown the scheduler recomputes at clock [now]. *)
Definition recomputed_countdown (now : Z) (c : RailwayCrossing) : Z :=
  Z.max 0 (adjusted_10 (weather c) - dwell_seconds now c).

(** A crossing that is counting down since the same instant and under the
    same weather as [c0]. *)
Definition countdown_guard (c0 c : RailwayCrossing) : Prop :=
  state c = COUNTDOWN /\ 0 < countdown c /\
  last_state_change c = last_state_change c0 /\ weather c = weather c0.

(** Several scheduler iterations in a row. *)
Fixpoint run_ticks (ticks : list (nat -> tick_input)) (s : RailwaySystem)
    : RailwaySystem :=
  match ticks with
  | [] => s
  | ins :: ticks' => run_ticks ticks' (fst (background_tick ins s))
  end.

(** Every component is at 50 percent or more. *)
Definition health_floor (c : RailwayCrossing) : Prop :=
  Forall (fun kv => 50 <= snd kv) (component_health c).

(** Successive calls of [transition] on one crossing. *)
Fixpoint run_transitions (steps : list (CrossingState * oracle))
    (w : cworld) : cworld :=
  match steps with
  | [] => w
  | (new_state, o) :: steps' =>
      run_transitions steps' (fst (transition new_state o w))
  end.

(** The commands that [process_command] recognises. *)
Definition known_commands : list string :=
  ["approach"; "countdown"; "barrier_down"; "train_pass"; "reset";
   "emergency"; "maintenance"; "inject_fault"; "clear_faults"].

(** [crossing_id] passes the range check of [process_command]. *)
Definition valid_id (crossing_id : Z) (s : RailwaySystem) : Prop :=
  0 <= crossing_id < Z.of_nat (length (crossings s)).

(** What [process_command] makes of the outcome of the command branches:
    the statistics update and the result, or the exception handler. *)
Definition finish_command (i : nat) (crossing_id : Z) (command : string)
    (now : Z) (x : RailwaySystem * outcome (option bool))
    : RailwaySystem * outcome command_result :=
  match x with
  | (s, Ok None) => (s, Ok (Failed (UnknownCommand command)))
  | (s, Ok (Some success)) =>
      let s' := set_statistics (count_operation success now (statistics s)) s in
      match crossings s !! i with
      | Some c =>
          (s', Ok (Done success (state c) (get_state_description c)
                     (get_next_action c)))
      | None =>
          (set_logger (log_event "SYSTEM_ERROR" (Some crossing_id) (logger s')) s',
           Ok (Failed (InternalError IndexError)))
      end
  | (s, Raise e) =>
      (set_logger (log_event "SYSTEM_ERROR" (Some crossing_id) (logger s)) s,
       Ok (Failed (InternalError e)))
  end.

(** The statistics are [st] and there are [n] crossings. *)
Definition counters_and_size (st : Statistics) (n : nat) (s : RailwaySystem)
    : Prop :=
  statistics s = st /\ length (crossings s) = n.

(** A command branch that returns, returns [Some success]. *)
Definition ends_some (m : M RailwaySystem (option bool)) : Prop :=
  forall s s' r, m s = (s', Ok r) -> r <> None.

(** A crossing method that never raises and whose effect on the crossing
    and result do not depend on the logger. *)
Definition cfun {A} (m : M cworld A) (f : RailwayCrossing -> RailwayCrossing)
    (r : RailwayCrossing -> A) : Prop :=
  forall lg c, exists lg', m (lg, c) = ((lg', f c), Ok (r c)).

(** The system state, up to the contents of the logger. *)
Definition sys_is (cs : list RailwayCrossing) (g : GlobalState)
    (st : Statistics) (s : RailwaySystem) : Prop :=
  crossings s = cs /\ global_state s = g /\ statistics s = st.

(** [yields cs g st m a cs' g']: from crossings [cs], global state [g] and
    statistics [st], the computation [m] returns [a] without raising and
    leaves crossings [cs'], global state [g'] and the same statistics (the
    logger is not tracked). *)
Definition yields {A} (cs : list RailwayCrossing) (g : GlobalState)
    (st : Statistics) (m : M RailwaySystem A) (a : A)
    (cs' : list RailwayCrossing) (g' : GlobalState) : Prop :=
  hoare (sys_is cs g st) m (fun x s => x = a /\ sys_is cs' g' st s)
        (fun _ _ => False).

(** The dict that [clear_faults] stores in [sensor_health]. *)
Definition cleared_sensors : gmap string bool :=
  <["ir" := true]> (<["vibration" := true]> (<["rfid" := true]> ∅)).



(* ===================================================================== *)
(** ** Sample inputs *)
(* ===================================================================== *)

(** Sample inputs used to instantiate the theorems below. *)
Definition sample_oracle : oracle := {|
  now_change := 5000000; now_history := 5000001;
  rand_random := 0.05; rand_choice := 2; rand_randint := 4
|}.

Definition quiet_oracle : oracle := {|
  now_change := 9000000; now_history := 9000002;
  rand_random := 0.7; rand_choice := 0; rand_randint := 0
|}.

Definition storm_warning_crossing : RailwayCrossing :=
  set_state WARNING (set_weather STORM (new_crossing 0 0)).

(** Sample state: crossing 0 of a new system after [approach] and
    [countdown], counting down from 10 since second 9. *)
Definition counting_system : RailwaySystem :=
  fst (process_command 0 "countdown" VNone (fun _ => quiet_oracle) 2
         (fst (process_command 0 "approach" VNone (fun _ => quiet_oracle) 1
                 (new_system (fun _ => 0) 0)))).

Definition counting_crossing : RailwayCrossing :=
  default (new_crossing 0 0) (crossings counting_system !! 0%nat).

Definition tick_at (now : Z) : nat -> tick_input :=
  fun _ => {| tick_now := now; tick_oracle := sample_oracle |}.



(* ===================================================================== *)
(** ** Rules of the program logic *)
(* ===================================================================== *)

Section HoareRules.
Context {W : Type}.
Implicit Types P : W -> Prop.

Lemma hoare_conseq {A} P P' (m : M W A) Q Q' E E' :
  hoare P' m Q' E' ->
  (forall w, P w -> P' w) ->
  (forall a w, Q' a w -> Q a w) ->
  (forall e w, E' e w -> E e w) ->
  hoare P m Q E.
Proof.
  intros H HP HQ HE w Hw. specialize (H w (HP w Hw)).
  destruct (m w) as [w' [a|e]]; auto.
Qed.

Lemma hoare_ret {A} P (a : A) Q E :
  (forall w, P w -> Q a w) -> hoare P (ret a) Q E.
Proof. intros H w Hw. apply H, Hw. Qed.

Lemma hoare_raise {A} P e (Q : A -> W -> Prop) E :
  (forall w, P w -> E e w) -> hoare P (raise e) Q E.
Proof. intros H w Hw. apply H, Hw. Qed.

Lemma hoare_bind {A B} P (m : M W A) (k : A -> M W B) R Q E :
  hoare P m R E ->
  (forall a, hoare (R a) (k a) Q E) ->
  hoare P (bind m k) Q E.
Proof.
  intros Hm Hk w Hw. unfold bind. specialize (Hm w Hw).
  destruct (m w) as [w' [a|e]]; [apply (Hk a w' Hm) | exact Hm].
Qed.

Lemma hoare_get P Q E :
  (forall w, P w -> Q w w) -> hoare P get Q E.
Proof. intros H w Hw. apply H, Hw. Qed.

Lemma hoare_modify P (f : W -> W) Q E :
  (forall w, P w -> Q tt (f w)) -> hoare P (modify f) Q E.
Proof. intros H w Hw. apply H, Hw. Qed.

Lemma hoare_eval {A} P (x : outcome A) Q E :
  (forall w, P w -> match x with Ok a => Q a w | Raise e => E e w end) ->
  hoare P (eval x) Q E.
Proof. intros H w Hw. specialize (H w Hw). unfold eval. destruct x; exact H. Qed.

Lemma hoare_try_except {A} P (m : M W A) (h : exn -> M W A) Q E E' :
  hoare P m Q E' ->
  (forall e, hoare (E' e) (h e) Q E) ->
  hoare P (try_except m h) Q E.
Proof.
  intros Hm Hh w Hw. unfold try_except. specialize (Hm w Hw).
  destruct (m w) as [w' [a|e]]; [exact Hm | apply (Hh e w' Hm)].
Qed.

(** The derived rules for invariants. *)

Lemma preserves_ret {A} P (a : A) : preserves P (ret a).
Proof. apply hoare_ret; auto. Qed.

Lemma preserves_raise {A} P e : preserves P (@raise W A e).
Proof. apply hoare_raise; auto. Qed.

Lemma preserves_get P : preserves P get.
Proof. apply hoare_get; auto. Qed.

Lemma preserves_eval {A} P (x : outcome A) : preserves P (eval x).
Proof. apply hoare_eval. intros w Hw. destruct x; exact Hw. Qed.

Lemma preserves_modify P (f : W -> W) :
  (forall w, P w -> P (f w)) -> preserves P (modify f).
Proof. intros H. apply hoare_modify. exact H. Qed.

Lemma preserves_bind {A B} P (m : M W A) (k : A -> M W B) :
  preserves P m -> (forall a, preserves P (k a)) -> preserves P (bind m k).
Proof. intros Hm Hk. eapply hoare_bind; [exact Hm | exact Hk]. Qed.

Lemma preserves_try_except {A} P (m : M W A) (h : exn -> M W A) :
  preserves P m -> (forall e, preserves P (h e)) -> preserves P (try_except m h).
Proof. intros Hm Hh. eapply hoare_try_except; [exact Hm | exact Hh]. Qed.

Lemma preserves_for_each P (l : list nat) (body : nat -> M W unit) :
  (forall j, preserves P (body j)) -> preserves P (for_each l body).
Proof.
  intros Hb. induction l as [|j l IH]; simpl.
  - apply preserves_ret.
  - apply preserves_bind; [apply Hb | intros _; exact IH].
Qed.

Lemma preserves_state {A} P (m : M W A) w : preserves P m -> P w -> P (fst (m w)).
Proof.
  intros H Hw. specialize (H w Hw). destruct (m w) as [w' [a|e]]; exact H.
Qed.

(** The derived rules for computations that never raise. *)

Lemma total_ret {A} P (a : A) : total P (ret a).
Proof. apply hoare_ret; auto. Qed.

Lemma total_get P : total P get.
Proof. apply hoare_get; auto. Qed.

Lemma total_modify P (f : W -> W) :
  (forall w, P w -> P (f w)) -> total P (modify f).
Proof. intros H. apply hoare_modify. exact H. Qed.

Lemma total_bind {A B} P (m : M W A) (k : A -> M W B) :
  total P m -> (forall a, total P (k a)) -> total P (bind m k).
Proof. intros Hm Hk. eapply hoare_bind; [exact Hm | exact Hk]. Qed.

Lemma total_try_except {A} P (m : M W A) (h : exn -> M W A) :
  preserves P m -> (forall e, total P (h e)) -> total P (try_except m h).
Proof.
  intros Hm Hh. eapply hoare_try_except; [|exact Hh].
  eapply hoare_conseq; [exact Hm | auto ..].
Qed.

Lemma total_for_each P (l : list nat) (body : nat -> M W unit) :
  (forall j, j ∈ l -> total P (body j)) -> total P (for_each l body).
Proof.
  induction l as [|j l IH]; simpl; intros Hb.
  - apply total_ret.
  - apply total_bind; [apply Hb; left | intros _; apply IH].
    intros j' Hj'. apply Hb. right. exact Hj'.
Qed.

Lemma total_preserves {A} P (m : M W A) : total P m -> preserves P m.
Proof.
  intros H. eapply hoare_conseq; [exact H | auto ..]. intros e w [].
Qed.

Lemma total_run {A} P (m : M W A) w :
  total P m -> P w -> exists a, snd (m w) = Ok a /\ P (fst (m w)).
Proof.
  intros H Hw. specialize (H w Hw). destruct (m w) as [w' [a|e]]; [|destruct H].
  exists a. split; [reflexivity | exact H].
Qed.

End HoareRules.

(* ===================================================================== *)
(** ** Closed forms of the crossing methods *)
(* ===================================================================== *)

(** Unfold the monad operations applied to a state. *)
Ltac mstep :=
  cbv beta iota delta
    [bind ret raise get modify eval try_except self update log fst snd].

Lemma get_adjusted_time_10 c :
  get_adjusted_time c 10 = Ok (adjusted_10 (weather c)).
Proof.
  unfold get_adjusted_time. destruct (weather c); vm_compute; reflexivity.
Qed.

Lemma _update_outputs_run w :
  _update_outputs w = ((fst w, derived_outputs (snd w)), Ok tt).
Proof.
  destruct w as [lg c]. unfold _update_outputs, derived_outputs. mstep.
  destruct (state c); mstep; try reflexivity.
  cbn [weather set_barrier set_traffic_lights set_alarm].
  rewrite get_adjusted_time_10. reflexivity.
Qed.

Lemma degradation_step_run o w :
  exists lg', degradation_step o w = ((lg', wear o (snd w)), Ok tt).
Proof.
  destruct w as [lg c]. unfold degradation_step, wear.
  destruct (rand_random o <? 0.1)%float; [|eexists; reflexivity].
  unfold degrade_component. mstep.
  destruct (random_choice _ _) as [component|]; [|eexists; reflexivity].
  destruct (health_get _ _); eexists; reflexivity.
Qed.

Lemma log_specific_event_run new_state c w :
  exists lg', log_specific_event new_state c w =
    ((lg', if bool_decide (new_state = COUNTDOWN)
           then set_countdown (adjusted_10 (weather c)) (snd w) else snd w),
     Ok tt).
Proof.
  destruct w as [lg c0]. unfold log_specific_event.
  destruct new_state; mstep; try (eexists; reflexivity).
  - destruct (bool_decide _); eexists; reflexivity.
  - rewrite get_adjusted_time_10. eexists; reflexivity.
Qed.

Lemma transition_invalid new_state o lg c :
  new_state ∉ valid_transitions (state c) ->
  transition new_state o (lg, c) =
  ((log_event "INVALID_TRANSITION" (Some (cid c)) lg, c), Ok false).
Proof.
  intros H. unfold transition. mstep.
  rewrite bool_decide_eq_false_2 by assumption. reflexivity.
Qed.

Lemma transition_valid new_state o lg c :
  new_state ∈ valid_transitions (state c) ->
  exists lg',
    transition new_state o (lg, c) = ((lg', entered new_state o c), Ok true).
Proof.
  intros H. unfold transition. mstep.
  rewrite bool_decide_eq_true_2 by assumption. cbv iota. cbn [negb].
  edestruct (log_specific_event_run new_state c) as [lg1 ->].
  cbv iota. rewrite _update_outputs_run. cbv iota beta.
  edestruct (degradation_step_run o) as [lg2 ->].
  eexists. reflexivity.
Qed.

(** [transition] never raises; its result is the table lookup and its
    effect on the crossing is [after_transition]. *)
Lemma transition_run new_state o lg c :
  exists lg',
    transition new_state o (lg, c) =
    ((lg', after_transition new_state o c),
     Ok (bool_decide (new_state ∈ valid_transitions (state c)))).
Proof.
  unfold after_transition. case_bool_decide as Hv.
  - apply transition_valid, Hv.
  - eexists. apply transition_invalid, Hv.
Qed.

(** Fields of the crossing after the degradation step and after
    [_update_outputs]. *)
Lemma wear_other_fields o c :
  cid (wear o c) = cid c /\ state (wear o c) = state c /\
  barrier (wear o c) = barrier c /\
  train_position (wear o c) = train_position c /\
  train_speed (wear o c) = train_speed c /\
  train_distance (wear o c) = train_distance c /\
  weather (wear o c) = weather c /\ countdown (wear o c) = countdown c /\
  sensor_health (wear o c) = sensor_health c /\ faults (wear o c) = faults c /\
  state_history (wear o c) = state_history c /\
  last_state_change (wear o c) = last_state_change c /\
  operation_count (wear o c) = operation_count c.
Proof. unfold wear. repeat case_match; repeat split; reflexivity. Qed.

Lemma wear_component_health o c c' :
  component_health c' = component_health c ->
  component_health (wear o c') = component_health (wear o c).
Proof. intros H. unfold wear. rewrite H. repeat case_match; simpl; congruence. Qed.

Lemma entered_fields new_state o c :
  state (entered new_state o c) = new_state /\
  barrier (entered new_state o c) =
    match new_state with
    | BARRIER_DOWN | TRAIN_PASSING => "DOWN"
    | _ => "UP"
    end /\
  train_position (entered new_state o c) =
    match new_state with
    | EMERGENCY => NInt (-100)
    | _ => train_position c
    end /\
  countdown (entered new_state o c) =
    match new_state with
    | IDLE => 10
    | WARNING | COUNTDOWN => adjusted_10 (weather c)
    | _ => countdown c
    end /\
  train_speed (entered new_state o c) = train_speed c /\
  train_distance (entered new_state o c) = train_distance c /\
  weather (entered new_state o c) = weather c /\
  last_state_change (entered new_state o c) = now_change o /\
  sensor_health (entered new_state o c) = sensor_health c /\
  faults (entered new_state o c) = faults c /\
  cid (entered new_state o c) = cid c /\
  component_health (entered new_state o c) = component_health (wear o c).
Proof.
  unfold entered. cbv zeta.
  match goal with |- context [wear o ?x] => set (X := x) end.
  assert (HX : component_health X = component_health c)
    by (subst X; destruct new_state; reflexivity).
  rewrite (wear_component_health o c X HX).
  destruct (wear_other_fields o X)
    as (-> & -> & -> & -> & -> & -> & -> & -> & -> & -> & _ & -> & _).
  subst X. destruct new_state; simpl; repeat split; reflexivity.
Qed.

(* ===================================================================== *)
(** ** The transition table *)
(* ===================================================================== *)

(** C1. [transition(target)] succeeds exactly when [target] is in the row of
    the seven-state table for the current state, the table is the one of the
    specification, the call never raises, and a failed call leaves the
    crossing (so its state, countdown and state_history) as it was. *)
Theorem transition_follows_table (new_state : CrossingState) (o : oracle)
    (lg : SystemLogger) (c : RailwayCrossing) :
  (valid_transitions IDLE = [WARNING; EMERGENCY; MAINTENANCE] /\
   valid_transitions WARNING = [COUNTDOWN; IDLE; EMERGENCY] /\
   valid_transitions COUNTDOWN = [BARRIER_DOWN; EMERGENCY] /\
   valid_transitions BARRIER_DOWN = [TRAIN_PASSING; EMERGENCY] /\
   valid_transitions TRAIN_PASSING = [IDLE; EMERGENCY] /\
   valid_transitions EMERGENCY = [IDLE] /\
   valid_transitions MAINTENANCE = [IDLE]) /\
  exists success,
    snd (transition new_state o (lg, c)) = Ok success /\
    (success = true <-> new_state ∈ valid_transitions (state c)) /\
    (success = false ->
     let c' := snd (fst (transition new_state o (lg, c))) in
     state c' = state c /\ countdown c' = countdown c /\
     state_history c' = state_history c /\ c' = c).
Proof.
  split; [repeat split; reflexivity|].
  destruct (transition_run new_state o lg c) as [lg' E].
  exists (bool_decide (new_state ∈ valid_transitions (state c))).
  rewrite E. cbn [fst snd]. split; [reflexivity|]. split.
  - apply bool_decide_eq_true.
  - intros Hf. unfold after_transition. rewrite Hf. auto.
Qed.

(** The ten-state table of [core/fsm.py] is a different one: from
    TRAIN_PASSING it goes to BARRIER_UP, not to IDLE. *)
Lemma fsm_table_differs :
  CrossingFSM._is_valid_transition CrossingFSM.TRAIN_PASSING CrossingFSM.IDLE
    = false /\
  bool_decide (IDLE ∈ valid_transitions TRAIN_PASSING) = true.
Proof. split; reflexivity. Qed.

(** C5. A successful transition into COUNTDOWN sets countdown to
    [get_adjusted_time(10)], which is [round(10 * multiplier)]: 18 under
    STORM, 10 under CLEAR (13 under RAIN, 15 under FOG). *)
Theorem countdown_on_entering_COUNTDOWN (o : oracle) (lg : SystemLogger)
    (c : RailwayCrossing) :
  snd (transition COUNTDOWN o (lg, c)) = Ok true ->
  let c' := snd (fst (transition COUNTDOWN o (lg, c))) in
  get_adjusted_time c 10 = Ok (countdown c') /\
  py_round (10 * weather_multipliers (weather c))%float = Ok (countdown c') /\
  (weather c = STORM -> countdown c' = 18) /\
  (weather c = CLEAR -> countdown c' = 10) /\
  (weather c = RAIN -> countdown c' = 13) /\
  (weather c = FOG -> countdown c' = 15).
Proof.
  destruct (transition_run COUNTDOWN o lg c) as [lg' E]. rewrite E.
  cbn [fst snd]. intros Hok. unfold after_transition.
  injection Hok as ->.
  destruct (entered_fields COUNTDOWN o c) as (_ & _ & _ & -> & _).
  rewrite get_adjusted_time_10. split; [reflexivity|]. split.
  - destruct (weather c); vm_compute; reflexivity.
  - repeat split; intros ->; reflexivity.
Qed.

Lemma countdown_on_entering_COUNTDOWN_witness :
  snd (transition COUNTDOWN sample_oracle (new_logger, storm_warning_crossing))
    = Ok true /\
  countdown (snd (fst (transition COUNTDOWN sample_oracle
                         (new_logger, storm_warning_crossing)))) = 18.
Proof.
  assert (H : snd (transition COUNTDOWN sample_oracle
                     (new_logger, storm_warning_crossing)) = Ok true)
    by (vm_compute; reflexivity).
  split; [exact H|].
  apply (countdown_on_entering_COUNTDOWN sample_oracle new_logger
           storm_warning_crossing H).
  reflexivity.
Defined.

(* ===================================================================== *)
(** ** Component wear *)
(* ===================================================================== *)

Lemma health_get_set k k0 x d :
  health_get k (health_set k0 x d) =
  if String.eqb k k0 then Some x else health_get k d.
Proof.
  induction d as [|[k1 v1] d IH]; simpl.
  - destruct (String.eqb k k0); reflexivity.
  - destruct (String.eqb k0 k1) eqn:E01; simpl.
    + apply String.eqb_eq in E01. subst k1.
      destruct (String.eqb k k0); reflexivity.
    + destruct (String.eqb k k1) eqn:E1.
      * apply String.eqb_eq in E1. subst k1.
        rewrite String.eqb_sym, E01. reflexivity.
      * exact IH.
Qed.

Lemma health_get_floor k v d :
  Forall (fun kv => 50 <= snd kv) d -> health_get k d = Some v -> 50 <= v.
Proof.
  induction 1 as [|[k1 v1] d H1 _ IH]; simpl; [discriminate|].
  destruct (String.eqb k k1); [intros [= <-]; exact H1 | exact IH].
Qed.

Lemma health_set_floor k v d :
  50 <= v -> Forall (fun kv : string * Z => 50 <= snd kv) d ->
  Forall (fun kv : string * Z => 50 <= snd kv) (health_set k v d).
Proof.
  intros Hv. induction 1 as [|[k1 v1] d H1 Hd IH]; simpl.
  - repeat constructor. exact Hv.
  - destruct (String.eqb k k1); constructor; auto.
Qed.

Lemma random_randint_1_3_range draw : 1 <= random_randint_1_3 draw <= 3.
Proof.
  unfold random_randint_1_3.
  pose proof (Z.mod_pos_bound draw 3 ltac:(lia)). lia.
Qed.

(** The degradation step changes nothing, or lowers one component by 1 to
    3 points with a floor of 50. *)
Lemma wear_shape o c :
  component_health (wear o c) = component_health c \/
  exists k v d,
    1 <= d <= 3 /\ health_get k (component_health c) = Some v /\
    component_health (wear o c) =
      health_set k (Z.max 50 (v - d)) (component_health c).
Proof.
  unfold wear. destruct (rand_random o <? 0.1)%float; [|left; reflexivity].
  destruct (random_choice _ _) as [k|]; [|left; reflexivity].
  destruct (health_get k (component_health c)) as [v|] eqn:Hk;
    [|left; reflexivity].
  right. exists k, v, (random_randint_1_3 (rand_randint o)).
  split; [apply random_randint_1_3_range|]. split; [exact Hk | reflexivity].
Qed.

Lemma shape_floor d d' :
  Forall (fun kv : string * Z => 50 <= snd kv) d ->
  (d' = d \/
   exists k v x, 1 <= x <= 3 /\ health_get k d = Some v /\
                 d' = health_set k (Z.max 50 (v - x)) d) ->
  Forall (fun kv : string * Z => 50 <= snd kv) d' /\
  forall k v', health_get k d' = Some v' ->
    exists v, health_get k d = Some v /\ 50 <= v' <= v.
Proof.
  intros Hd [->|(k0 & v0 & x & Hx & Hk0 & ->)].
  - split; [exact Hd|]. intros k v' Hk. exists v'.
    pose proof (health_get_floor k v' d Hd Hk). split; [exact Hk | lia].
  - split; [apply health_set_floor; [lia | exact Hd]|].
    intros k v'. rewrite health_get_set.
    destruct (String.eqb k k0) eqn:E.
    + apply String.eqb_eq in E. subst k0. intros [= <-].
      exists v0. pose proof (health_get_floor k v0 d Hd Hk0).
      split; [exact Hk0 | lia].
    + intros Hk. exists v'.
      pose proof (health_get_floor k v' d Hd Hk). split; [exact Hk | lia].
Qed.

Lemma after_transition_component_health new_state o c :
  component_health (after_transition new_state o c) = component_health c \/
  component_health (after_transition new_state o c) =
    component_health (wear o c).
Proof.
  unfold after_transition. case_bool_decide; [right | left; reflexivity].
  apply (entered_fields new_state o c).
Qed.

Lemma transition_health_shape new_state o lg c :
  let c' := snd (fst (transition new_state o (lg, c))) in
  component_health c' = component_health c \/
  exists k v d,
    1 <= d <= 3 /\ health_get k (component_health c) = Some v /\
    component_health c' = health_set k (Z.max 50 (v - d)) (component_health c).
Proof.
  destruct (transition_run new_state o lg c) as [lg' E]. rewrite E.
  cbn [fst snd].
  destruct (after_transition_component_health new_state o c) as [->| ->];
    [left; reflexivity | apply wear_shape].
Qed.

Lemma transition_health_floor new_state o w :
  health_floor (snd w) -> health_floor (snd (fst (transition new_state o w))).
Proof.
  destruct w as [lg c]. intros H.
  apply (shape_floor _ _ H (transition_health_shape new_state o lg c)).
Qed.

Lemma run_transitions_health_floor steps w :
  health_floor (snd w) -> health_floor (snd (run_transitions steps w)).
Proof.
  revert w. induction steps as [|[new_state o] steps IH]; intros w H; simpl.
  - exact H.
  - apply IH, transition_health_floor, H.
Qed.

(** C8. From a crossing whose components are all at 50 or more (as at
    construction), after any sequence of transitions every component is
    still at 50 or more, and one more transition leaves every component
    where it was or lower: it changes nothing, or lowers one component by 1
    to 3 points with a floor of 50. *)
Theorem component_health_floor_and_monotone
    (steps : list (CrossingState * oracle)) (new_state : CrossingState)
    (o : oracle) (lg : SystemLogger) (c : RailwayCrossing) :
  health_floor c ->
  let w := run_transitions steps (lg, c) in
  let c' := snd (fst (transition new_state o w)) in
  health_floor (snd w) /\ health_floor c' /\
  (forall k v', health_get k (component_health c') = Some v' ->
     exists v, health_get k (component_health (snd w)) = Some v /\
               50 <= v' <= v) /\
  (component_health c' = component_health (snd w) \/
   exists k v d,
     1 <= d <= 3 /\ health_get k (component_health (snd w)) = Some v /\
     component_health c' =
       health_set k (Z.max 50 (v - d)) (component_health (snd w))).
Proof.
  intros H w c'.
  assert (Hw : health_floor (snd w))
    by (apply run_transitions_health_floor, H).
  assert (Hs := transition_health_shape new_state o (fst w) (snd w)).
  rewrite <- surjective_pairing in Hs. fold c' in Hs.
  destruct (shape_floor _ _ Hw Hs) as [Hf Hm]. auto.
Qed.

Lemma component_health_floor_and_monotone_witness :
  health_floor (new_crossing 0 0) /\
  let w := run_transitions [(WARNING, sample_oracle); (COUNTDOWN, sample_oracle)]
             (new_logger, new_crossing 0 0) in
  let c' := snd (fst (transition BARRIER_DOWN sample_oracle w)) in
  health_get "alarm_system" (component_health (snd w)) = Some 96 /\
  health_get "alarm_system" (component_health c') = Some 94 /\
  health_floor c'.
Proof.
  assert (H : health_floor (new_crossing 0 0))
    by (repeat constructor; simpl; lia).
  split; [exact H|]. cbv zeta.
  split; [vm_compute; reflexivity|]. split; [vm_compute; reflexivity|].
  apply (component_health_floor_and_monotone
           [(WARNING, sample_oracle); (COUNTDOWN, sample_oracle)]
           BARRIER_DOWN sample_oracle new_logger (new_crossing 0 0) H).
Defined.

(* ===================================================================== *)
(** ** Arrival time *)
(* ===================================================================== *)











(** The constant [1000 / 3600] of the source is a division of two ints. *)
Lemma kmh_to_mps_constant : Z_truediv 1000 3600 = Ok (1000 / 3600)%float.
Proof. vm_compute. reflexivity. Qed.

(** The variant of [core/fsm.py] tests the speed only: with a positive
    speed and distance 0 it returns 0.0 where the one above returns [+inf]. *)
Lemma fsm_arrival_time_ignores_distance :
  CrossingFSM.calculate_arrival_time (VFloat 100) (VFloat 0) = Ok 0%float /\
  calculate_arrival_time
    (set_train_distance (VFloat 0)
       (set_train_speed (VFloat 100) (new_crossing 0 0))) = Ok infinity.
Proof. split; vm_compute; reflexivity. Qed.

(* ===================================================================== *)
(** ** Rules for the methods of the system *)
(* ===================================================================== *)

Lemma cfun_update f : cfun (update f) f (fun _ => tt).
Proof. intros lg c. eexists. reflexivity. Qed.

Lemma cfun_self : cfun self (fun c => c) (fun c => c).
Proof. intros lg c. eexists. reflexivity. Qed.

Lemma cfun_ret {A} (a : A) : cfun (ret a) (fun c => c) (fun _ => a).
Proof. intros lg c. eexists. reflexivity. Qed.

Lemma cfun_transition new_state o :
  cfun (transition new_state o) (after_transition new_state o)
       (fun c => bool_decide (new_state ∈ valid_transitions (state c))).
Proof. intros lg c. apply transition_run. Qed.

Lemma cfun_discard {A} (m : M cworld A) f r :
  cfun m f r -> cfun (_ <- m ;; ret tt) f (fun _ => tt).
Proof.
  intros H lg c. destruct (H lg c) as [lg' E]. exists lg'.
  unfold bind. rewrite E. reflexivity.
Qed.

Lemma hoare_on_crossing_is {A} i (m : M cworld A) f r cs g st c :
  cfun m f r -> cs !! i = Some c ->
  hoare (sys_is cs g st) (on_crossing i m)
        (fun a s => a = r c /\ sys_is (<[i := f c]> cs) g st s)
        (fun _ _ => False).
Proof.
  intros Hm Hi s (Hcs & Hg & Hst). unfold on_crossing.
  rewrite Hcs, Hi. destruct (Hm (logger s) c) as [lg' ->].
  split; [reflexivity|]. unfold sys_is. simpl. auto.
Qed.

Lemma hoare_sys_log ev cid cs g st :
  hoare (sys_is cs g st) (sys_log ev cid) (fun _ => sys_is cs g st)
        (fun _ _ => False).
Proof. intros s H. exact H. Qed.

Lemma hoare_update_global f cs g st :
  hoare (sys_is cs g st) (update_global f) (fun _ => sys_is cs (f g) st)
        (fun _ _ => False).
Proof. intros s (Hcs & Hg & Hst). unfold sys_is. simpl. rewrite Hg. auto. Qed.

Lemma hoare_update_statistics f cs g st :
  hoare (sys_is cs g st) (update_statistics f) (fun _ => sys_is cs g (f st))
        (fun _ _ => False).
Proof. intros s (Hcs & Hg & Hst). unfold sys_is. simpl. rewrite Hst. auto. Qed.





(** *** [process_command] around the command branches *)

Lemma valid_id_lookup crossing_id s :
  valid_id crossing_id s ->
  exists c, crossings s !! Z.to_nat crossing_id = Some c.
Proof.
  intros [H0 H1]. apply lookup_lt_is_Some_2. lia.
Qed.

Lemma process_command_invalid crossing_id command params os now s :
  ~ valid_id crossing_id s ->
  process_command crossing_id command params os now s =
  (s, Ok (Failed (InvalidCrossingID crossing_id))).
Proof.
  intros H. unfold process_command. mstep.
  replace ((crossing_id <? 0) || (Z.of_nat (length (crossings s)) <=? crossing_id))
    with true; [reflexivity|].
  symmetry. apply orb_true_iff. unfold valid_id in H.
  destruct (Z.ltb_spec crossing_id 0); [left; reflexivity|right].
  apply Z.leb_le. lia.
Qed.

Lemma process_command_valid crossing_id command params os now s :
  valid_id crossing_id s ->
  process_command crossing_id command params os now s =
  match params_items params with
  | Raise e =>
      (set_logger (log_event "SYSTEM_ERROR" (Some crossing_id) (logger s)) s,
       Ok (Failed (InternalError e)))
  | Ok _ =>
      finish_command (Z.to_nat crossing_id) crossing_id command now
        (run_command (Z.to_nat crossing_id) crossing_id command params os
           (set_logger (log_event "USER_COMMAND" (Some crossing_id) (logger s)) s))
  end.
Proof.
  intros H. destruct (valid_id_lookup _ _ H) as [c Hc].
  unfold process_command. mstep.
  replace ((crossing_id <? 0) || (Z.of_nat (length (crossings s)) <=? crossing_id))
    with false.
  2:{ symmetry. apply orb_false_iff. unfold valid_id in H.
      split; [apply Z.ltb_ge | apply Z.leb_gt]; lia. }
  unfold on_crossing at 1. rewrite Hc. mstep.
  rewrite list_insert_id by exact Hc.
  destruct s as [lg cs g st]. cbn [set_crossings set_logger logger crossings global_state statistics] in *.
  destruct (params_items params) as [d|e]; [|reflexivity].
  unfold sys_log at 1. mstep. cbn [set_logger logger crossings global_state statistics].
  destruct (run_command _ _ _ _ _ _) as [s3 [[success|]|e]]; try reflexivity.
  unfold finish_command, update_statistics, on_crossing. mstep.
  cbn [set_statistics crossings].
  destruct (crossings s3 !! Z.to_nat crossing_id) as [c3|] eqn:H3; [|reflexivity].
  destruct s3 as [lg3 cs3 g3 st3]. cbn in *. rewrite list_insert_id by exact H3.
  reflexivity.
Qed.

(** *** Counters and number of crossings through the command branches *)

Lemma total_on_crossing {A} st n i (m : M cworld A) f r :
  cfun m f r -> (i < n)%nat ->
  total (counters_and_size st n) (on_crossing i m).
Proof.
  intros Hm Hi s [Hst Hn]. unfold on_crossing.
  destruct (lookup_lt_is_Some_2 (crossings s) i ltac:(lia)) as [c ->].
  destruct (Hm (logger s) c) as [lg' ->].
  split; simpl; [exact Hst | rewrite length_insert; exact Hn].
Qed.

Lemma preserves_on_crossing_size {A} st n i (m : M cworld A) f r :
  cfun m f r -> preserves (counters_and_size st n) (on_crossing i m).
Proof.
  intros Hm s [Hst Hn]. unfold on_crossing.
  destruct (crossings s !! i) as [c|]; [|split; assumption].
  destruct (Hm (logger s) c) as [lg' ->].
  split; simpl; [exact Hst | rewrite length_insert; exact Hn].
Qed.

Lemma total_sys_log st n ev cid :
  total (counters_and_size st n) (sys_log ev cid).
Proof. apply total_modify. intros s H. exact H. Qed.

Lemma total_update_global st n f :
  total (counters_and_size st n) (update_global f).
Proof. apply total_modify. intros s H. exact H. Qed.

Lemma total_for_crossings st n (body : nat -> M RailwaySystem unit) :
  (forall j, (j < n)%nat -> total (counters_and_size st n) (body j)) ->
  total (counters_and_size st n) (for_crossings body).
Proof.
  intros Hb. unfold for_crossings.
  apply (hoare_bind _ _ _
           (fun a s => counters_and_size st n s /\ length (crossings a) = n)).
  - apply hoare_get. intros s H. split; [exact H | apply H].
  - intros a s [Hs Ha]. revert s Hs. fold (total (counters_and_size st n)
      (for_each (seq 0 (length (crossings a))) body)).
    apply total_for_each. intros j Hj. apply Hb.
    apply elem_of_seq in Hj. lia.
Qed.

Lemma total_eval_ok {W A} (P : W -> Prop) (a : A) : total P (eval (Ok a)).
Proof. apply hoare_eval. auto. Qed.

Ltac total_step :=
  match goal with
  | |- total _ (bind _ _) => apply total_bind; [|intros ?]
  | |- total _ (ret _) => apply total_ret
  | |- total _ get => apply total_get
  | |- total _ (eval (Ok _)) => apply total_eval_ok
  | |- total _ (sys_log _ _) => apply total_sys_log
  | |- total _ (update_global _) => apply total_update_global
  | |- total _ (on_crossing _ (update _)) =>
      eapply total_on_crossing; [apply cfun_update | assumption]
  | |- total _ (on_crossing _ (transition _ _)) =>
      eapply total_on_crossing; [apply cfun_transition | assumption]
  | |- total _ (for_crossings _) => apply total_for_crossings; intros ? ?
  | |- total _ (if ?b then _ else _) => destruct b
  | |- total _ (match ?x with _ => _ end) => destruct x
  end.

Lemma total_weather_block st n i crossing_id v :
  (i < n)%nat ->
  total (counters_and_size st n)
    (try_except
       (w <- eval (weather_of_param v) ;;
        on_crossing i (update (set_weather w)) ;;
        update_global (set_g_weather w) ;;
        sys_log "WEATHER_CHANGE" (Some crossing_id))
       (fun _ => on_crossing i (update (set_weather CLEAR)))).
Proof.
  intros Hi. apply total_try_except.
  - apply preserves_bind; [apply preserves_eval|]. intros w.
    apply total_preserves. repeat total_step.
  - intros _. total_step.
Qed.

Lemma total_run_command st n i crossing_id command params os d :
  (i < n)%nat -> params_items params = Ok d ->
  total (counters_and_size st n) (run_command i crossing_id command params os).
Proof.
  intros Hi Hp. unfold run_command.
  assert (Hd : truthy params = true -> as_dict params = Ok d)
    by (unfold params_items in Hp; intros Ht; rewrite Ht in Hp; exact Hp).
  repeat match goal with
         | |- total _ (if String.eqb command ?x then _ else _) =>
             destruct (String.eqb command x)
         end.
  10: total_step.
  all: destruct (truthy params); [rewrite ?(Hd eq_refl)|].
  all: repeat first [apply total_weather_block; assumption | total_step].
Qed.

Lemma ends_some_bind {A} (m : M RailwaySystem A) k :
  (forall a, ends_some (k a)) -> ends_some (bind m k).
Proof.
  intros Hk s s' r. unfold bind. destruct (m s) as [s1 [a|e]]; [|discriminate].
  apply Hk.
Qed.

Lemma ends_some_ret b : ends_some (ret (Some b)).
Proof. intros s s' r [= _ <-]. discriminate. Qed.

Lemma run_command_known i crossing_id command params os :
  command ∈ known_commands ->
  ends_some (run_command i crossing_id command params os).
Proof.
  intros Hk. unfold run_command.
  repeat match goal with
         | |- ends_some (if String.eqb command ?x then _ else _) =>
             destruct (String.eqb command x) eqn:?
         end.
  10: { exfalso. unfold known_commands in Hk.
        repeat (apply elem_of_cons in Hk as [->|Hk];
                [simpl in *; discriminate|]).
        inversion Hk. }
  all: repeat (apply ends_some_bind; intros ?); apply ends_some_ret.
Qed.

Lemma run_command_unknown i crossing_id command params os s :
  command ∉ known_commands ->
  run_command i crossing_id command params os s = (s, Ok None).
Proof.
  intros Hk. unfold run_command.
  repeat match goal with
         | |- (if String.eqb command ?x then _ else _) _ = _ =>
             destruct (String.eqb_spec command x) as [->|_];
             [exfalso; apply Hk; unfold known_commands;
              repeat first [left; fail | right]; set_solver|]
         end.
  reflexivity.
Qed.

(** C9, as the code has it. [process_command] never raises: it returns a
    result. The result is [Done success ...] exactly when the crossing id is
    in range, the command is one of the nine known ones and the parameters
    are absent, empty or a mapping; then [total_operations] grows by one and
    exactly one of [successful_transitions] and [failed_transitions] grows
    by one, according to [success]. Otherwise the result is [Failed] with
    the error (invalid id, unknown command, or the caught exception) and the
    statistics are as before. *)
Theorem process_command_statistics (crossing_id : Z) (command : string)
    (params : pyval) (os : nat -> oracle) (now : Z) (s : RailwaySystem) :
  exists res s',
    process_command crossing_id command params os now s = (s', Ok res) /\
    ((exists success new_state description action,
        res = Done success new_state description action /\
        valid_id crossing_id s /\ command ∈ known_commands /\
        (exists d, params_items params = Ok d) /\
        total_operations (statistics s') =
          total_operations (statistics s) + 1 /\
        successful_transitions (statistics s') =
          successful_transitions (statistics s) + (if success then 1 else 0) /\
        failed_transitions (statistics s') =
          failed_transitions (statistics s) + (if success then 0 else 1))
     \/
     (exists error,
        res = Failed error /\ statistics s' = statistics s /\
        ((error = InvalidCrossingID crossing_id /\ ~ valid_id crossing_id s) \/
         (exists e, error = InternalError e /\ valid_id crossing_id s /\
                    params_items params = Raise e) \/
         (error = UnknownCommand command /\ valid_id crossing_id s /\
          (command ∉ known_commands) /\
          exists d, params_items params = Ok d)))).
Proof.
  destruct (decide (valid_id crossing_id s)) as [Hv|Hv].
  2:{ rewrite (process_command_invalid _ _ _ _ _ _ Hv).
      do 2 eexists. split; [reflexivity|]. right. eexists.
      split; [reflexivity|]. split; [reflexivity|]. left. auto. }
  rewrite (process_command_valid _ _ _ _ _ _ Hv).
  destruct (params_items params) as [d|e] eqn:Hp.
  2:{ do 2 eexists. split; [reflexivity|]. right. eexists.
      split; [reflexivity|]. split; [reflexivity|]. right. left. eauto. }
  set (s1 := set_logger _ s).
  destruct (decide (command ∈ known_commands)) as [Hk|Hk].
  2:{ rewrite (run_command_unknown _ _ _ _ _ _ Hk). simpl.
      do 2 eexists. split; [reflexivity|]. right. eexists.
      split; [reflexivity|]. split; [reflexivity|]. right. right. eauto. }
  assert (Hi : (Z.to_nat crossing_id < length (crossings s))%nat)
    by (destruct Hv; lia).
  destruct (total_run _ _ s1
              (total_run_command (statistics s) (length (crossings s))
                 (Z.to_nat crossing_id) crossing_id command params os d Hi Hp))
    as (r & Hr & Hst & Hn); [split; reflexivity|].
  destruct (run_command _ _ _ _ _ s1) as [s3 out] eqn:Hrun.
  cbn [fst snd] in *. subst out.
  destruct r as [success|];
    [|exfalso; exact (run_command_known _ _ _ _ _ Hk _ _ _ Hrun eq_refl)].
  unfold finish_command.
  destruct (lookup_lt_is_Some_2 (crossings s3) (Z.to_nat crossing_id)
              ltac:(lia)) as [c ->].
  do 2 eexists. split; [reflexivity|]. left. exists success. do 3 eexists.
  split; [reflexivity|]. split; [exact Hv|]. split; [exact Hk|].
  split; [eauto|]. cbn [statistics set_statistics]. rewrite Hst.
  destruct success; simpl; repeat split; lia.
Qed.

(** C9 as stated fails: a command with an out-of-range crossing id is
    answered without touching the statistics. *)
Lemma statistics_not_always_updated :
  ~ (forall crossing_id command params os now s,
       total_operations
         (statistics (fst (process_command crossing_id command params os now s)))
       = total_operations (statistics s) + 1).
Proof.
  intros H.
  specialize (H 7 "reset" VNone (fun _ => quiet_oracle) 0
                (new_system (fun _ => 0) 0)).
  vm_compute in H. discriminate H.
Qed.
(* ===================================================================== *)
(** ** Invariants of the crossings through every operation *)
(* ===================================================================== *)

Section CrossingInvariant.
Variable G : RailwayCrossing -> Prop.

Lemma preserves_update f :
  (forall c, G c -> G (f c)) ->
  preserves (fun w : cworld => G (snd w)) (update f).
Proof. intros H. apply preserves_modify. intros [lg c]. apply H. Qed.

Lemma preserves_log ev cid :
  preserves (fun w : cworld => G (snd w)) (log ev cid).
Proof. apply preserves_modify. intros [lg c] H. exact H. Qed.

Lemma preserves_self : preserves (fun w : cworld => G (snd w)) self.
Proof. intros w H. exact H. Qed.

Lemma preserves_cfun {A} (m : M cworld A) f r :
  cfun m f r -> (forall c, G c -> G (f c)) ->
  preserves (fun w : cworld => G (snd w)) m.
Proof.
  intros Hm Hf [lg c] H. destruct (Hm lg c) as [lg' ->]. apply Hf, H.
Qed.

Lemma preserves_on_crossing_all {A} i (m : M cworld A) :
  preserves (fun w : cworld => G (snd w)) m ->
  preserves (all_crossings G) (on_crossing i m).
Proof.
  intros Hm s Hs. unfold on_crossing.
  destruct (crossings s !! i) as [c|] eqn:Hc; [|exact Hs].
  pose proof (Hm (logger s, c)) as H. cbv beta in H.
  assert (Hc' : G c) by (eapply Forall_lookup_1; eassumption).
  specialize (H Hc').
  destruct (m (logger s, c)) as [w' [a|e]]; unfold all_crossings; simpl;
    apply Forall_insert; assumption.
Qed.

Lemma preserves_on_crossing_at {A} j i (m : M cworld A) :
  (i = j -> preserves (fun w : cworld => G (snd w)) m) ->
  preserves (crossing_at j G) (on_crossing i m).
Proof.
  intros Hm s (c & Hc & HG). unfold on_crossing.
  destruct (crossings s !! i) as [ci|] eqn:Hi; [|exists c; auto].
  destruct (decide (i = j)) as [->|Hne].
  - assert (ci = c) by congruence. subst ci.
    pose proof (Hm eq_refl (logger s, c) HG) as H.
    destruct (m (logger s, c)) as [w' [a|e]]; exists (snd w'); simpl;
      (split; [apply list_lookup_insert_eq; eapply lookup_lt_Some; eassumption
              | exact H]).
  - destruct (m (logger s, ci)) as [w' [a|e]]; exists c; simpl;
      (split; [rewrite list_lookup_insert_ne by exact Hne; exact Hc | exact HG]).
Qed.

Lemma preserves_sys_modify (P : RailwaySystem -> Prop) f :
  (forall s, crossings (f s) = crossings s) ->
  (forall s s', crossings s' = crossings s -> P s -> P s') ->
  preserves P (modify f).
Proof. intros Hf HP. apply preserves_modify. intros s. apply HP, Hf. Qed.

End CrossingInvariant.

Lemma all_crossings_frame G s s' :
  crossings s' = crossings s -> all_crossings G s -> all_crossings G s'.
Proof. unfold all_crossings. intros ->. auto. Qed.

Lemma crossing_at_frame j G s s' :
  crossings s' = crossings s -> crossing_at j G s -> crossing_at j G s'.
Proof. unfold crossing_at. intros ->. auto. Qed.

Create HintDb frame.
#[export] Hint Resolve all_crossings_frame crossing_at_frame : frame.

(** One step of a proof that a computation preserves a predicate; the
    side conditions on updated crossings are left as goals. *)
Ltac pres_step :=
  match goal with
  | |- preserves _ (bind _ _) => apply preserves_bind; [|intros ?]
  | |- preserves _ (ret _) => apply preserves_ret
  | |- preserves _ (raise _) => apply preserves_raise
  | |- preserves _ get => apply preserves_get
  | |- preserves _ self => apply preserves_self
  | |- preserves _ (eval _) => apply preserves_eval
  | |- preserves _ (log _ _) => apply preserves_log
  | |- preserves _ (try_except _ _) => apply preserves_try_except; [|intros ?]
  | |- preserves _ (for_each _ _) => apply preserves_for_each; intros ?
  | |- preserves _ (for_crossings _) => unfold for_crossings
  | |- preserves _ (sys_log _ _) =>
      apply preserves_sys_modify; [reflexivity | eauto with frame]
  | |- preserves _ (update_global _) =>
      apply preserves_sys_modify; [reflexivity | eauto with frame]
  | |- preserves _ (update_statistics _) =>
      apply preserves_sys_modify; [reflexivity | eauto with frame]
  | |- preserves _ (if ?b then _ else _) => destruct b
  | |- preserves _ (match ?x with _ => _ end) => destruct x
  end.

(** *** The barrier invariant *)

Lemma barrier_inv_after_transition new_state o c :
  barrier_inv c -> barrier_inv (after_transition new_state o c).
Proof.
  intros H. unfold after_transition. case_bool_decide; [|exact H].
  unfold barrier_inv.
  destruct (entered_fields new_state o c) as (-> & -> & _).
  destruct new_state; auto; discriminate.
Qed.

Lemma preserves_barrier_transition new_state o :
  preserves (fun w : cworld => barrier_inv (snd w)) (transition new_state o).
Proof.
  eapply preserves_cfun; [apply cfun_transition|].
  intros c. apply barrier_inv_after_transition.
Qed.

Ltac barrier_step :=
  first
    [ pres_step
    | apply preserves_barrier_transition
    | apply preserves_update; intros ? H; exact H
    | apply preserves_on_crossing_all ].

Lemma preserves_barrier_tick_crossing i :
  preserves (fun w : cworld => barrier_inv (snd w)) (tick_crossing i).
Proof.
  unfold tick_crossing, update_train_position, auto_advance.
  repeat barrier_step.
Qed.

Lemma preserves_barrier_tick ins :
  preserves (all_crossings barrier_inv) (background_tick ins).
Proof.
  unfold background_tick, update_system_health.
  repeat first [apply preserves_on_crossing_all; apply preserves_barrier_tick_crossing
               | barrier_step].
Qed.

Lemma preserves_barrier_run_command i crossing_id command params os :
  preserves (all_crossings barrier_inv)
    (run_command i crossing_id command params os).
Proof.
  unfold run_command. repeat barrier_step.
Qed.

Lemma preserves_barrier_process_command crossing_id command params os now :
  preserves (all_crossings barrier_inv)
    (process_command crossing_id command params os now).
Proof.
  unfold process_command.
  repeat first [apply preserves_barrier_run_command | barrier_step].
Qed.

Lemma barrier_inv_new_crossing crossing_id now :
  barrier_inv (new_crossing crossing_id now).
Proof. intros H. discriminate H. Qed.

(** C2. [barrier == "DOWN"] implies [state] is BARRIER_DOWN or
    TRAIN_PASSING: this holds for a new crossing and a new system; from a
    state where it holds it holds again after a call of [transition], after
    an iteration of the scheduler and after a command, however they end; and
    a successful transition into EMERGENCY, IDLE, WARNING, COUNTDOWN or
    MAINTENANCE leaves the barrier UP. *)
Theorem barrier_down_only_when_closed (s : RailwaySystem) :
  (forall crossing_id now, barrier_inv (new_crossing crossing_id now)) /\
  (forall nows now, all_crossings barrier_inv (new_system nows now)) /\
  (forall new_state o lg c,
     barrier_inv c ->
     barrier_inv (snd (fst (transition new_state o (lg, c))))) /\
  (all_crossings barrier_inv s ->
   (forall ins, all_crossings barrier_inv (fst (background_tick ins s))) /\
   (forall crossing_id command params os now,
      all_crossings barrier_inv
        (fst (process_command crossing_id command params os now s)))) /\
  (forall new_state o lg c,
     snd (transition new_state o (lg, c)) = Ok true ->
     new_state ∈ [EMERGENCY; IDLE; WARNING; COUNTDOWN; MAINTENANCE] ->
     state (snd (fst (transition new_state o (lg, c)))) = new_state /\
     barrier (snd (fst (transition new_state o (lg, c)))) = "UP").
Proof.
  split; [apply barrier_inv_new_crossing|].
  split.
  { intros nows now. unfold all_crossings, new_system. simpl.
    repeat (constructor; [apply barrier_inv_new_crossing|]). constructor. }
  split.
  { intros new_state o lg c H.
    apply (preserves_state _ _ (lg, c) (preserves_barrier_transition new_state o)).
    exact H. }
  split.
  { intros H. split.
    - intros ins. apply (preserves_state _ _ s (preserves_barrier_tick ins) H).
    - intros crossing_id command params os now.
      apply (preserves_state _ _ s
               (preserves_barrier_process_command crossing_id command params
                  os now) H). }
  intros new_state o lg c.
  destruct (transition_run new_state o lg c) as [lg' ->]. cbn [fst snd].
  intros [= Hv] Hin. unfold after_transition. rewrite Hv.
  destruct (entered_fields new_state o c) as (-> & -> & _).
  split; [reflexivity|].
  repeat (apply elem_of_cons in Hin as [->|Hin]; [reflexivity|]).
  inversion Hin.
Qed.

Lemma barrier_down_only_when_closed_witness :
  all_crossings barrier_inv (new_system (fun _ => 0) 0) /\
  all_crossings barrier_inv
    (fst (background_tick (fun _ => {| tick_now := 4000000;
                                       tick_oracle := sample_oracle |})
            (fst (process_command 1 "approach" VNone (fun _ => quiet_oracle) 1
                    (new_system (fun _ => 0) 0))))).
Proof.
  assert (H0 : all_crossings barrier_inv (new_system (fun _ => 0) 0))
    by apply (proj1 (proj2 (barrier_down_only_when_closed
                              (new_system (fun _ => 0) 0)))).
  split; [exact H0|].
  apply (proj2 (proj2 (proj2 (barrier_down_only_when_closed _)))).
  apply (proj2 (proj2 (proj2 (barrier_down_only_when_closed _)))).
  exact H0.
Defined.

(* ===================================================================== *)
(** ** The countdown guard of the scheduler *)
(* ===================================================================== *)

Lemma _can_advance_state_counting c :
  state c = COUNTDOWN -> 0 < countdown c -> _can_advance_state c = Ok false.
Proof.
  intros Hs Hc. unfold _can_advance_state. rewrite Hs. simpl.
  apply Z.ltb_lt in Hc. rewrite Hc. reflexivity.
Qed.

Lemma preserves_guard_update_train_position c0 :
  preserves (fun w : cworld => countdown_guard c0 (snd w)) update_train_position.
Proof.
  unfold update_train_position.
  repeat first [pres_step | apply preserves_update; intros ? H; exact H].
Qed.

Lemma recomputed_countdown_guard now c0 c :
  countdown_guard c0 c ->
  recomputed_countdown now c = recomputed_countdown now c0.
Proof.
  intros (_ & _ & Hl & Hw).
  unfold recomputed_countdown, dwell_seconds, time_in_state.
  rewrite Hl, Hw. reflexivity.
Qed.

(** While the recomputed countdown is positive, "auto-advance" only stores
    it. *)
Lemma auto_advance_counting i lg c :
  state c = COUNTDOWN -> 0 < countdown c ->
  0 < recomputed_countdown (tick_now i) c ->
  auto_advance i (lg, c) =
  ((lg, if bool_decide (recomputed_countdown (tick_now i) c ≠ countdown c)
        then set_countdown (recomputed_countdown (tick_now i) c) c else c),
   Ok tt).
Proof.
  intros Hs Hc Hr. unfold auto_advance. mstep. rewrite Hs.
  rewrite (bool_decide_eq_false_2 (COUNTDOWN = WARNING)) by discriminate.
  rewrite (bool_decide_eq_true_2 (COUNTDOWN = COUNTDOWN)) by reflexivity.
  apply Z.ltb_lt in Hc as Hc'. rewrite Hc'. cbn [andb]. mstep.
  rewrite get_adjusted_time_10. cbv iota beta.
  fold (recomputed_countdown (tick_now i) c).
  destruct (bool_decide (recomputed_countdown (tick_now i) c ≠ countdown c));
    mstep.
  - cbn [countdown set_countdown].
    destruct (Z.eqb_spec (recomputed_countdown (tick_now i) c) 0); [lia|].
    reflexivity.
  - destruct (Z.eqb_spec (countdown c) 0); [lia | reflexivity].
Qed.

Lemma preserves_guard_auto_advance i c0 :
  0 < recomputed_countdown (tick_now i) c0 ->
  preserves (fun w : cworld => countdown_guard c0 (snd w)) (auto_advance i).
Proof.
  intros Hr [lg c] Hg. cbn [snd] in Hg.
  pose proof (recomputed_countdown_guard (tick_now i) c0 c Hg) as E.
  destruct Hg as (Hs & Hc & Hl & Hw).
  rewrite auto_advance_counting by (try assumption; rewrite E; exact Hr).
  cbn [snd]. case_bool_decide; [|repeat split; assumption].
  repeat split; simpl; try assumption. rewrite E. exact Hr.
Qed.

Lemma preserves_guard_tick_crossing i c0 :
  0 < recomputed_countdown (tick_now i) c0 ->
  preserves (fun w : cworld => countdown_guard c0 (snd w)) (tick_crossing i).
Proof.
  intros Hr. unfold tick_crossing. apply preserves_bind.
  - apply preserves_guard_update_train_position.
  - intros _. apply preserves_guard_auto_advance, Hr.
Qed.

Lemma preserves_guard_tick ins j c0 :
  0 < recomputed_countdown (tick_now (ins j)) c0 ->
  preserves (crossing_at j (countdown_guard c0)) (background_tick ins).
Proof.
  intros Hr. unfold background_tick, update_system_health.
  repeat first
    [ apply preserves_on_crossing_at; intros ->;
      apply preserves_guard_tick_crossing, Hr
    | pres_step ].
Qed.

Lemma run_ticks_guard ticks j c0 s :
  (forall ins, ins ∈ ticks -> 0 < recomputed_countdown (tick_now (ins j)) c0) ->
  crossing_at j (countdown_guard c0) s ->
  crossing_at j (countdown_guard c0) (run_ticks ticks s).
Proof.
  revert s. induction ticks as [|ins ticks IH]; intros s Hr Hs; simpl.
  - exact Hs.
  - apply IH.
    + intros ins' Hin. apply Hr. right. exact Hin.
    + apply (preserves_state _ _ s (preserves_guard_tick ins j c0
               (Hr ins ltac:(left))) Hs).
Qed.

(** When the recomputed countdown is 0 the crossing advances. *)
Lemma auto_advance_fires i lg c :
  state c = COUNTDOWN -> 0 < countdown c ->
  recomputed_countdown (tick_now i) c = 0 ->
  state (snd (fst (auto_advance i (lg, c)))) = BARRIER_DOWN.
Proof.
  intros Hs Hc Hr. unfold auto_advance. mstep. rewrite Hs.
  rewrite (bool_decide_eq_false_2 (COUNTDOWN = WARNING)) by discriminate.
  rewrite (bool_decide_eq_true_2 (COUNTDOWN = COUNTDOWN)) by reflexivity.
  apply Z.ltb_lt in Hc as Hc'. rewrite Hc'. cbn [andb]. mstep.
  rewrite get_adjusted_time_10. cbv iota beta.
  fold (recomputed_countdown (tick_now i) c). rewrite Hr.
  rewrite bool_decide_eq_true_2 by lia. mstep.
  cbn [countdown set_countdown]. simpl (0 =? 0).  cbv iota.
  unfold _can_advance_state. cbn [state set_countdown countdown]. rewrite Hs.
  simpl. 
  match goal with |- context [transition BARRIER_DOWN ?o (?l, ?x)] =>
    destruct (transition_run BARRIER_DOWN o l x) as [lg' ->] end.
  cbn [fst snd]. unfold after_transition. cbn [state set_countdown]. rewrite Hs.
  simpl bool_decide. cbv iota.
  apply (entered_fields BARRIER_DOWN).
Qed.

Lemma tick_crossing_fires i lg c :
  state c = COUNTDOWN -> 0 < countdown c ->
  recomputed_countdown (tick_now i) c = 0 ->
  snd (update_train_position (lg, c)) = Ok tt ->
  state (snd (fst (tick_crossing i (lg, c)))) = BARRIER_DOWN.
Proof.
  intros Hs Hc Hr Hu.
  assert (Hg : countdown_guard c c) by (repeat split; assumption).
  pose proof (preserves_guard_update_train_position c (lg, c) Hg) as H1.
  unfold tick_crossing, bind.
  destruct (update_train_position (lg, c)) as [[lg1 c1] [[]|e]];
    [|discriminate Hu].
  cbn [snd] in H1.
  pose proof (recomputed_countdown_guard (tick_now i) c c1 H1) as E.
  destruct H1 as (Hs1 & Hc1 & _).
  apply auto_advance_fires; [assumption | assumption | congruence].
Qed.

(** C4. A crossing in COUNTDOWN with countdown > 0 is refused by
    [_can_advance_state]; over any number of scheduler iterations at which
    the recomputed countdown [max(0, get_adjusted_time(10) - int(dwell))] is
    positive it stays in COUNTDOWN with a positive countdown; an iteration
    after which it is in BARRIER_DOWN is one whose recomputed countdown is 0;
    and when the recomputed countdown is 0 (and the position update does not
    raise) the iteration does advance it to BARRIER_DOWN. *)
Theorem countdown_guard_blocks_advance (s : RailwaySystem) (j : nat)
    (c : RailwayCrossing) :
  crossings s !! j = Some c -> state c = COUNTDOWN -> 0 < countdown c ->
  _can_advance_state c = Ok false /\
  (forall now, exists adjusted,
     get_adjusted_time c 10 = Ok adjusted /\
     recomputed_countdown now c = Z.max 0 (adjusted - dwell_seconds now c)) /\
  (forall ticks,
     (forall ins, ins ∈ ticks ->
                  0 < recomputed_countdown (tick_now (ins j)) c) ->
     crossing_at j (fun c' => state c' = COUNTDOWN /\ 0 < countdown c')
       (run_ticks ticks s)) /\
  (forall ins c',
     crossings (fst (background_tick ins s)) !! j = Some c' ->
     state c' = BARRIER_DOWN ->
     recomputed_countdown (tick_now (ins j)) c = 0) /\
  (forall i lg,
     recomputed_countdown (tick_now i) c = 0 ->
     snd (update_train_position (lg, c)) = Ok tt ->
     state (snd (fst (tick_crossing i (lg, c)))) = BARRIER_DOWN).
Proof.
  intros Hj Hs Hc.
  assert (Hg : crossing_at j (countdown_guard c) s)
    by (exists c; repeat split; assumption).
  split; [apply _can_advance_state_counting; assumption|].
  split.
  { intros now. exists (adjusted_10 (weather c)).
    split; [apply get_adjusted_time_10 | reflexivity]. }
  split.
  { intros ticks Hr.
    destruct (run_ticks_guard ticks j c s Hr Hg) as (c' & Hc' & H1 & H2 & _).
    exists c'. auto. }
  split.
  { intros ins c' Hc' Hb.
    pose proof (Z.le_max_l 0 (adjusted_10 (weather c)
                                - dwell_seconds (tick_now (ins j)) c)) as Hge.
    fold (recomputed_countdown (tick_now (ins j)) c) in Hge.
    destruct (Z.eq_dec (recomputed_countdown (tick_now (ins j)) c) 0) as [E|E];
      [exact E | exfalso].
    destruct (preserves_state _ _ s
                (preserves_guard_tick ins j c ltac:(lia)) Hg)
      as (c'' & Hc'' & H1 & _).
    congruence. }
  intros i lg Hr Hu. apply tick_crossing_fires; assumption.
Qed.

Lemma countdown_guard_blocks_advance_witness :
  (crossings counting_system !! 0%nat = Some counting_crossing /\
   state counting_crossing = COUNTDOWN /\ 0 < countdown counting_crossing) /\
  crossing_at 0 (fun c' => state c' = COUNTDOWN /\ 0 < countdown c')
    (run_ticks [tick_at 12000000; tick_at 13000000; tick_at 18999999]
       counting_system) /\
  state (snd (fst (tick_crossing (tick_at 19000000 0%nat)
                     (new_logger, counting_crossing)))) = BARRIER_DOWN.
Proof.
  assert (H1 : crossings counting_system !! 0%nat = Some counting_crossing)
    by (vm_compute; reflexivity).
  assert (H2 : state counting_crossing = COUNTDOWN) by (vm_compute; reflexivity).
  assert (H3 : 0 < countdown counting_crossing) by (vm_compute; reflexivity).
  split; [auto|].
  destruct (countdown_guard_blocks_advance counting_system 0 counting_crossing
              H1 H2 H3) as (_ & _ & Hstay & _ & Hfire).
  split.
  - apply Hstay. intros ins Hin.
    repeat (apply elem_of_cons in Hin as [->|Hin];
            [vm_compute; reflexivity|]).
    inversion Hin.
  - apply Hfire; vm_compute; reflexivity.
Defined.

(* ===================================================================== *)
(** ** Effects of single commands *)
(* ===================================================================== *)

Lemma yields_bind {A B} cs g st (m : M RailwaySystem A) (k : A -> M RailwaySystem B)
    a cs1 g1 b cs2 g2 :
  yields cs g st m a cs1 g1 -> yields cs1 g1 st (k a) b cs2 g2 ->
  yields cs g st (bind m k) b cs2 g2.
Proof.
  intros Hm Hk. eapply hoare_bind; [exact Hm|].
  intros x s [-> Hs]. apply Hk, Hs.
Qed.

Lemma yields_ret {A} cs g st (a : A) : yields cs g st (ret a) a cs g.
Proof. apply hoare_ret. auto. Qed.


Lemma yields_sys_log cs g st ev cid : yields cs g st (sys_log ev cid) tt cs g.
Proof. intros s H. split; [reflexivity | exact H]. Qed.


Lemma yields_on_crossing {A} cs g st i c (m : M cworld A) f r :
  cfun m f r -> (i < length cs)%nat ->
  yields (<[i := c]> cs) g st (on_crossing i m) (r c) (<[i := f c]> cs) g.
Proof.
  intros Hm Hi.
  pose proof (hoare_on_crossing_is i m f r (<[i := c]> cs) g st c Hm
                (list_lookup_insert_eq cs i c Hi)) as H.
  rewrite list_insert_insert_eq in H. exact H.
Qed.



Lemma yields_run {A} cs g st (m : M RailwaySystem A) a cs' g' s :
  yields cs g st m a cs' g' -> sys_is cs g st s ->
  exists s', m s = (s', Ok a) /\ sys_is cs' g' st s'.
Proof.
  intros H Hs. specialize (H s Hs). destruct (m s) as [s' [x|e]]; [|destruct H].
  destruct H as [-> H]. eauto.
Qed.

(** *** The branches [clear_faults] and [emergency] *)

Lemma run_command_clear_faults cs g st i c crossing_id params os :
  (i < length cs)%nat ->
  yields (<[i := c]> cs) g st
    (run_command i crossing_id "clear_faults" params os) (Some true)
    (<[i := set_faults [] (set_sensor_health cleared_sensors c)]> cs) g.
Proof.
  intros Hi. unfold run_command. simpl.
  eapply yields_bind;
    [apply (yields_on_crossing cs g st i c _ _ _ (cfun_update _) Hi)|].
  eapply yields_bind;
    [apply (yields_on_crossing cs g st i _ _ _ _ (cfun_update _) Hi)|].
  eapply yields_bind; [apply yields_sys_log|]. apply yields_ret.
Qed.


(** A command branch with a known effect, inside [process_command]. *)
Lemma process_command_yields crossing_id command params os now s d
    success cs' g' c' :
  valid_id crossing_id s -> params_items params = Ok d ->
  yields (crossings s) (global_state s) (statistics s)
    (run_command (Z.to_nat crossing_id) crossing_id command params os)
    (Some success) cs' g' ->
  cs' !! Z.to_nat crossing_id = Some c' ->
  exists s',
    process_command crossing_id command params os now s =
      (s', Ok (Done success (state c') (get_state_description c')
                 (get_next_action c'))) /\
    crossings s' = cs' /\ global_state s' = g' /\
    statistics s' = count_operation success now (statistics s).
Proof.
  intros Hv Hp Hy Hc.
  rewrite (process_command_valid _ _ _ _ _ _ Hv), Hp.
  destruct (yields_run _ _ _ _ _ _ _
              (set_logger (log_event "USER_COMMAND" (Some crossing_id) (logger s)) s)
              Hy) as (s3 & -> & Hcs & Hg & Hst); [repeat split|].
  unfold finish_command. rewrite Hcs, Hc. eexists. split; [reflexivity|].
  simpl. rewrite Hst. auto.
Qed.






(** *** [clear_faults] twice *)

Lemma process_command_clear_faults crossing_id params os now s d c :
  valid_id crossing_id s -> params_items params = Ok d ->
  crossings s !! Z.to_nat crossing_id = Some c ->
  exists s',
    process_command crossing_id "clear_faults" params os now s =
      (s', Ok (Done true (state c) (get_state_description c)
                 (get_next_action c))) /\
    crossings s' =
      <[Z.to_nat crossing_id :=
          set_faults [] (set_sensor_health cleared_sensors c)]> (crossings s) /\
    global_state s' = global_state s.
Proof.
  intros Hv Hp Hc.
  assert (Hi : (Z.to_nat crossing_id < length (crossings s))%nat)
    by (eapply lookup_lt_Some; exact Hc).
  pose proof (run_command_clear_faults (crossings s) (global_state s)
                (statistics s) (Z.to_nat crossing_id) c crossing_id params os Hi)
    as Hy.
  rewrite list_insert_id in Hy by exact Hc.
  destruct (process_command_yields crossing_id "clear_faults" params os now s d
              _ _ _ (set_faults [] (set_sensor_health cleared_sensors c))
              Hv Hp Hy) as (s' & E & Hcs & Hg & _).
  { apply list_lookup_insert_eq, Hi. }
  exists s'. auto.
Qed.

(** C7, as the code has it. [clear_faults] empties [faults] and replaces
    [sensor_health] by a dict with the three keys ir, vibration and rfid,
    all healthy; a second call changes neither. The dict has no entry for
    ultrasonic, which a new crossing has. *)
Theorem clear_faults_drops_ultrasonic (s : RailwaySystem) (crossing_id : Z)
    (params1 params2 : pyval) (os1 os2 : nat -> oracle) (now1 now2 : Z) :
  valid_id crossing_id s ->
  (exists d, params_items params1 = Ok d) ->
  (exists d, params_items params2 = Ok d) ->
  let s1 := fst (process_command crossing_id "clear_faults" params1 os1 now1 s) in
  let s2 := fst (process_command crossing_id "clear_faults" params2 os2 now2 s1) in
  crossing_at (Z.to_nat crossing_id)
    (fun c1 => faults c1 = [] /\ sensor_health c1 = cleared_sensors) s1 /\
  crossing_at (Z.to_nat crossing_id)
    (fun c2 => faults c2 = [] /\ sensor_health c2 = cleared_sensors) s2 /\
  crossings s2 = crossings s1 /\
  cleared_sensors !! "ir" = Some true /\
  cleared_sensors !! "vibration" = Some true /\
  cleared_sensors !! "rfid" = Some true /\
  cleared_sensors !! "ultrasonic" = None /\
  (forall crossing_id' now,
     sensor_health (new_crossing crossing_id' now) !! "ultrasonic" = Some true).
Proof.
  intros Hv [d1 Hp1] [d2 Hp2] s1 s2.
  destruct (valid_id_lookup _ _ Hv) as [c Hc].
  assert (Hi : (Z.to_nat crossing_id < length (crossings s))%nat)
    by (eapply lookup_lt_Some; exact Hc).
  destruct (process_command_clear_faults crossing_id params1 os1 now1 s d1 c
              Hv Hp1 Hc) as (s1' & E1 & Hcs1 & _).
  assert (Es1 : s1 = s1') by (subst s1; rewrite E1; reflexivity).
  clearbody s1. subst s1'.
  assert (Hc1 : crossings s1 !! Z.to_nat crossing_id =
                Some (set_faults [] (set_sensor_health cleared_sensors c)))
    by (rewrite Hcs1; apply list_lookup_insert_eq, Hi).
  assert (Hv1 : valid_id crossing_id s1)
    by (unfold valid_id in *; rewrite Hcs1, length_insert; exact Hv).
  destruct (process_command_clear_faults crossing_id params2 os2 now2 s1 d2 _
              Hv1 Hp2 Hc1) as (s2' & E2 & Hcs2 & _).
  assert (Es2 : s2 = s2') by (subst s2; rewrite E2; reflexivity).
  clearbody s2. subst s2'.
  assert (Hsame : crossings s2 = crossings s1).
  { rewrite Hcs2. apply list_insert_id. exact Hc1. }
  split; [eexists; split; [exact Hc1 | split; reflexivity]|].
  split; [unfold crossing_at; rewrite Hsame; eexists;
          split; [exact Hc1 | split; reflexivity]|].
  split; [exact Hsame|].
  repeat split; reflexivity.
Qed.

Lemma clear_faults_drops_ultrasonic_witness :
  (valid_id 0 (new_system (fun _ => 0) 0) /\
   (exists d, params_items VNone = Ok d)) /\
  crossing_at 0
    (fun c1 => faults c1 = [] /\ sensor_health c1 = cleared_sensors)
    (fst (process_command 0 "clear_faults" VNone (fun _ => quiet_oracle) 1
            (new_system (fun _ => 0) 0))) /\
  cleared_sensors !! "ultrasonic" = None.
Proof.
  assert (H1 : valid_id 0 (new_system (fun _ => 0) 0))
    by (vm_compute; split; [discriminate | reflexivity]).
  assert (H2 : exists d, params_items VNone = Ok d) by (eexists; reflexivity).
  split; [auto|].
  pose proof (clear_faults_drops_ultrasonic (new_system (fun _ => 0) 0) 0
                VNone VNone (fun _ => quiet_oracle) (fun _ => quiet_oracle)
                1 2 H1 H2 H2) as H.
  split; [apply H | apply H].
Defined.

(** *** [approach] *)






